(** * Visual Vocab: the quiz orchestrator, the drawing surface and the
      share-card download, embedded from the TypeScript sources

    - [src/services/gemini.ts]: [cleanBase64], [generateQuiz]
    - [src/components/DrawingCanvas.tsx]: the pointer handlers and [exportCanvas]
    - [src/App.tsx]: [downloadImage]

    JavaScript strings are sequences of UTF-16 code units, numbers are IEEE
    binary64 values; both are kept as such. *)

From Stdlib Require Import List NArith ZArith Bool String Ascii Lia.
From Stdlib Require Import QArith.
Close Scope Q_scope.
From Stdlib Require Import PrimFloat Uint63 FloatAxioms FloatOps SpecFloat.
Import ListNotations.

Set Implicit Arguments.
Set Warnings "-register-all".
Local Open Scope list_scope.

(* ================================================================== *)
(** ** JavaScript strings *)
(* ================================================================== *)

Module JS.

(** A string is its list of UTF-16 code units. *)
Definition jsstring : Type := list N.

(** An ASCII literal of the source. *)
Definition lit (s : string) : jsstring :=
  List.map N_of_ascii (list_ascii_of_string s).

(** The double quote, written apart from the literals. *)
Definition dq : jsstring := [34%N].
(** A line break inside a template literal. *)
Definition nl : jsstring := [10%N].

Definition str_eqb (a b : jsstring) : bool :=
  if list_eq_dec N.eq_dec a b then true else false.

(** ECMAScript [WhiteSpace] and [LineTerminator] code units: what
    [String.prototype.trim] strips and what the class [\s] matches. *)
Definition isWhiteSpace (c : N) : bool :=
  ((c =? 9) || (c =? 10) || (c =? 11) || (c =? 12) || (c =? 13) || (c =? 32)
   || (c =? 160) || (c =? 5760) || ((8192 <=? c) && (c <=? 8202))
   || (c =? 8232) || (c =? 8233) || (c =? 8239) || (c =? 8287)
   || (c =? 12288) || (c =? 65279))%N.

Fixpoint trimStart (s : jsstring) : jsstring :=
  match s with
  | c :: s' => if isWhiteSpace c then trimStart s' else s
  | [] => []
  end.

Definition trimEnd (s : jsstring) : jsstring := rev (trimStart (rev s)).

(** [s.trim()] *)
Definition trim (s : jsstring) : jsstring := trimEnd (trimStart s).

(** Truthiness of a string: the empty string is the only falsy one. *)
Definition truthy (s : jsstring) : bool :=
  match s with [] => false | _ :: _ => true end.

(** Truthiness of [string | null]. *)
Definition truthy_opt (s : option jsstring) : bool :=
  match s with Some s' => truthy s' | None => false end.

(** [Some rest] when [p] is a prefix of [s], with [s = p ++ rest]. *)
Fixpoint strip_prefix (p s : jsstring) : option jsstring :=
  match p, s with
  | [], _ => Some s
  | a :: p', b :: s' => if (a =? b)%N then strip_prefix p' s' else None
  | _ :: _, [] => None
  end.

(** [s.split(' ')]-style split at every occurrence of one code unit: the
    pieces between the separators, empty pieces kept, never an empty list. *)
Fixpoint split_on (sep : N) (s : jsstring) : list jsstring :=
  match s with
  | [] => [[]]
  | c :: s' =>
      if (c =? sep)%N then [] :: split_on sep s'
      else match split_on sep s' with
           | w :: ws => (c :: w) :: ws
           | [] => [[c]]
           end
  end.

(** [s.replace(/\s+/g, r)]: every maximal run of white space becomes [r]. *)
Fixpoint replace_ws_runs (r : jsstring) (in_run : bool) (s : jsstring) : jsstring :=
  match s with
  | [] => []
  | c :: s' =>
      if isWhiteSpace c
      then (if in_run then [] else r) ++ replace_ws_runs r true s'
      else c :: replace_ws_runs r false s'
  end.

End JS.
Import JS.

(* ================================================================== *)
(** ** [gemini.ts]: header stripping *)
(* ================================================================== *)

(** The three headers the pattern
    [/^data:image\/(png|jpeg|jpg);base64,/] accepts, in the order the
    alternation tries them. *)
Definition dataUriHeaders : list jsstring :=
  [ lit "data:image/png;base64,";
    lit "data:image/jpeg;base64,";
    lit "data:image/jpg;base64," ].

(** [data.replace(re, "")] for an anchored pattern without the [g] flag: the
    first alternative that matches at position 0 is removed, once. *)
Fixpoint strip_first (hs : list jsstring) (data : jsstring) : jsstring :=
  match hs with
  | [] => data
  | h :: hs' =>
      match strip_prefix h data with
      | Some rest => rest
      | None => strip_first hs' data
      end
  end.

Definition cleanBase64 (data : jsstring) : jsstring :=
  strip_first dataUriHeaders data.

(* ================================================================== *)
(** ** Values, exceptions and promises *)
(* ================================================================== *)

(** What [JSON.parse] can return, plus [undefined] for a property that is not
    there. A number keeps its lexeme: the code never computes with one. *)
Inductive JSValue : Type :=
| JSUndefined
| JSNull
| JSBool (b : bool)
| JSNumber (lexeme : jsstring)
| JSString (s : jsstring)
| JSArray (items : list JSValue)
| JSObject (fields : list (jsstring * JSValue)).

(** What the code can throw or reject with. *)
Inductive Exn : Type :=
| ErrDrawingRequired            (* gemini.ts line 31 *)
| ErrDrawingOrSentenceRequired  (* gemini.ts line 69 *)
| ErrImageFailed                (* gemini.ts line 135 *)
| JsTypeError                   (* property read on undefined or null *)
| JsSyntaxError                 (* JSON.parse *)
| ServiceRejection (reason : jsstring).

(** [err.message] of the three errors the module constructs itself. *)
Definition message (e : Exn) : jsstring :=
  match e with
  | ErrDrawingRequired => lit "You must draw a picture to use 'Submit' mode."
  | ErrDrawingOrSentenceRequired =>
      lit "Please provide either a drawing or a sentence to generate an image."
  | ErrImageFailed => lit "Failed to generate or process image."
  | JsTypeError => lit "TypeError"
  | JsSyntaxError => lit "SyntaxError"
  | ServiceRejection reason => reason
  end.

Definition is_validation_error (e : Exn) : bool :=
  match e with
  | ErrDrawingRequired | ErrDrawingOrSentenceRequired => true
  | _ => false
  end.

(** The state a promise ends in; [Pending] is a promise that never settles.
    The same three cases describe how an [async] function ends. *)
Inductive Promise (A : Type) : Type :=
| Fulfilled (a : A)
| Rejected (e : Exn)
| Pending.
Arguments Rejected {A} e.
Arguments Pending {A}.

(** [Promise.all([p, q])]: fulfilled when both are, rejected as soon as one
    rejects. When both reject the one that settles first gives the reason;
    [firstWins] says whether that is [p]. *)
Definition Promise_all (firstWins : bool) {A B : Type}
    (p : Promise A) (q : Promise B) : Promise (A * B) :=
  match p, q with
  | Fulfilled a, Fulfilled b => Fulfilled (a, b)
  | Rejected e1, Rejected e2 => Rejected (if firstWins then e1 else e2)
  | Rejected e, _ => Rejected e
  | _, Rejected e => Rejected e
  | _, _ => Pending
  end.

(* ================================================================== *)
(** ** The generative service boundary *)
(* ================================================================== *)

Inductive RequestPart : Type :=
| InlineDataPart (mimeType data : jsstring)
| TextPart (text : jsstring).

Inductive Contents : Type :=
| PartsContents (parts : list RequestPart)
| StringContents (text : jsstring).

(** [responseSchema] of the text request. *)
Record Schema : Type := {
  properties : list jsstring;
  required : list jsstring
}.

Record Config : Type := {
  responseMimeType : jsstring;
  responseSchema : Schema
}.

(** The argument of [ai.models.generateContent]. *)
Record Request : Type := {
  model : jsstring;
  contents : Contents;
  config : option Config
}.

Definition imageModel : jsstring := lit "gemini-2.5-flash-image".
Definition textModel : jsstring := lit "gemini-2.5-flash".

(** A request to the image-generation model. *)
Definition is_image_request (r : Request) : bool := str_eqb (model r) imageModel.

(** The response, as far as the module reads it. Every field the SDK declares
    optional is an [option]. *)
Record Blob : Type := { blobMimeType : option jsstring; blobData : option jsstring }.
Record Part : Type := { inlineData : option Blob; partText : option jsstring }.
Record Content : Type := { parts : option (list Part) }.
Record Candidate : Type := { content : option Content }.
Record GenerateContentResponse : Type := {
  candidates : option (list Candidate);
  text : option jsstring
}.

(** How the service answers one request. Its rejections are its own: it
    cannot throw the errors this module constructs. *)
Inductive ServiceOutcome : Type :=
| Resolves (response : GenerateContentResponse)
| RejectsWith (reason : jsstring)
| NeverSettles.

(** The value the image promise resolves to: the object literal tagged
    [isOriginal], or a service response. *)
Inductive ImageResult : Type :=
| Original (data : jsstring)
| Generated (response : GenerateContentResponse).

Inductive Mode : Type := Submit | Generate.

(** [types.ts]. The two sentence fields are read off parsed JSON and hold
    whatever was there. *)
Record QuizResult : Type := {
  imageUrl : jsstring;
  originalSentence : JSValue;
  blankedSentence : JSValue;
  targetWord : jsstring
}.

(* ================================================================== *)
(** ** The effect of an [async] body: a request log and an outcome *)
(* ================================================================== *)

Definition Async (A : Type) : Type := list Request -> Promise A * list Request.

Definition ret {A : Type} (a : A) : Async A := fun log => (Fulfilled a, log).

Definition throw {A : Type} (e : Exn) : Async A := fun log => (Rejected e, log).

Definition bind {A B : Type} (m : Async A) (k : A -> Async B) : Async B :=
  fun log =>
    match m log with
    | (Fulfilled a, log') => k a log'
    | (Rejected e, log') => (Rejected e, log')
    | (Pending, log') => (Pending, log')
    end.

(** [await p]: resume with the value, throw the reason, or never resume. *)
Definition await {A : Type} (p : Promise A) : Async A := fun log => (p, log).

Notation "x <- m ;; k" := (bind m (fun x => k))
  (at level 61, m at next level, right associativity).
Notation "' pat <- m ;; k" := (bind m (fun x => match x with pat => k end))
  (at level 61, pat pattern, m at next level, right associativity).

(** Run an [async] function from an empty log. *)
Definition run {A : Type} (m : Async A) : Promise A * list Request := m [].
Definition outcome {A : Type} (m : Async A) : Promise A := fst (run m).
Definition requests {A : Type} (m : Async A) : list Request := snd (run m).

(* ================================================================== *)
(** ** [JSON.parse] *)
(* ================================================================== *)

Module Json.

Local Open Scope N_scope.

(** JSON white space: space, tab, line feed, carriage return. *)
Definition is_ws (c : N) : bool :=
  (c =? 32) || (c =? 9) || (c =? 10) || (c =? 13).

Fixpoint skip_ws (s : jsstring) : jsstring :=
  match s with
  | c :: s' => if is_ws c then skip_ws s' else s
  | [] => []
  end.

Definition is_digit (c : N) : bool := (48 <=? c) && (c <=? 57).

Definition hex_val (c : N) : option N :=
  if is_digit c then Some (c - 48)
  else if (97 <=? c) && (c <=? 102) then Some (c - 87)
  else if (65 <=? c) && (c <=? 70) then Some (c - 55)
  else None.

Definition hex4 (a b c d : N) : option N :=
  match hex_val a, hex_val b, hex_val c, hex_val d with
  | Some x, Some y, Some z, Some w => Some (((x * 16 + y) * 16 + z) * 16 + w)
  | _, _, _, _ => None
  end.

(** The code unit a one-letter escape stands for. *)
Definition simple_escape (c : N) : option N :=
  if c =? 34 then Some 34        (* quote *)
  else if c =? 92 then Some 92   (* backslash *)
  else if c =? 47 then Some 47   (* slash *)
  else if c =? 98 then Some 8    (* b *)
  else if c =? 102 then Some 12  (* f *)
  else if c =? 110 then Some 10  (* n *)
  else if c =? 114 then Some 13  (* r *)
  else if c =? 116 then Some 9   (* t *)
  else None.

(** The characters of a string after its opening quote, up to and including
    the closing one. *)
Fixpoint string_body (s : jsstring) : option (jsstring * jsstring) :=
  match s with
  | [] => None
  | c :: s1 =>
      if c =? 34 then Some ([], s1)
      else if c =? 92 then
        match s1 with
        | [] => None
        | e :: s2 =>
            if e =? 117 then
              match s2 with
              | h1 :: h2 :: h3 :: h4 :: s3 =>
                  match hex4 h1 h2 h3 h4, string_body s3 with
                  | Some u, Some (body, rest) => Some (u :: body, rest)
                  | _, _ => None
                  end
              | _ => None
              end
            else
              match simple_escape e, string_body s2 with
              | Some u, Some (body, rest) => Some (u :: body, rest)
              | _, _ => None
              end
        end
      else if c <? 32 then None
      else
        match string_body s1 with
        | Some (body, rest) => Some (c :: body, rest)
        | None => None
        end
  end.

Fixpoint take_digits (s : jsstring) : jsstring * jsstring :=
  match s with
  | c :: s' =>
      if is_digit c then let (ds, rest) := take_digits s' in (c :: ds, rest)
      else ([], s)
  | [] => ([], [])
  end.

(** The parts of a JSON number, each with what follows it: an optional
    minus; zero, or a digit string that does not start with zero; an optional
    fraction (a point and digits); an optional exponent (e or E, an optional
    sign, digits). *)
Definition opt_minus (s : jsstring) : jsstring * jsstring :=
  match s with
  | c :: s' => if c =? 45 then ([c], s') else ([], s)
  | [] => ([], s)
  end.

Definition int_part (s : jsstring) : option (jsstring * jsstring) :=
  match s with
  | d :: s' =>
      if is_digit d then Some (if d =? 48 then ([d], s') else take_digits s)
      else None
  | [] => None
  end.

Definition frac_part (s : jsstring) : option (jsstring * jsstring) :=
  match s with
  | p :: s' =>
      if p =? 46 then
        match take_digits s' with
        | ([], _) => None
        | (ds, rest) => Some (p :: ds, rest)
        end
      else Some ([], s)
  | [] => Some ([], s)
  end.

Definition opt_sign (s : jsstring) : jsstring * jsstring :=
  match s with
  | g :: s' => if (g =? 43) || (g =? 45) then ([g], s') else ([], s)
  | [] => ([], s)
  end.

Definition exp_part (s : jsstring) : option (jsstring * jsstring) :=
  match s with
  | e :: s' =>
      if (e =? 101) || (e =? 69) then
        let (sg, s1) := opt_sign s' in
        match take_digits s1 with
        | ([], _) => None
        | (ds, rest) => Some (e :: sg ++ ds, rest)
        end
      else Some ([], s)
  | [] => Some ([], s)
  end.

(** A JSON number: its lexeme and what follows it. *)
Definition number (s : jsstring) : option (jsstring * jsstring) :=
  let (sign, s0) := opt_minus s in
  match int_part s0 with
  | None => None
  | Some (whole, s1) =>
      match frac_part s1 with
      | None => None
      | Some (fr, s2) =>
          match exp_part s2 with
          | None => None
          | Some (ex, rest) => Some (sign ++ whole ++ fr ++ ex, rest)
          end
      end
  end.

(** One JSON value with the white space before it; the elements of an array
    after its bracket; the members of an object after its brace. *)
Fixpoint value (fuel : nat) (s : jsstring) {struct fuel}
  : option (JSValue * jsstring) :=
  match fuel with
  | O => None
  | S fuel' =>
      match skip_ws s with
      | [] => None
      | c :: s1 =>
          if c =? 34 then
            match string_body s1 with
            | Some (str, rest) => Some (JSString str, rest)
            | None => None
            end
          else if c =? 123 then
            match skip_ws s1 with
            | c' :: s2 =>
                if c' =? 125 then Some (JSObject [], s2)
                else
                  match members fuel' s1 with
                  | Some (fs, rest) => Some (JSObject fs, rest)
                  | None => None
                  end
            | [] => None
            end
          else if c =? 91 then
            match skip_ws s1 with
            | c' :: s2 =>
                if c' =? 93 then Some (JSArray [], s2)
                else
                  match elements fuel' s1 with
                  | Some (vs, rest) => Some (JSArray vs, rest)
                  | None => None
                  end
            | [] => None
            end
          else if c =? 116 then
            option_map (fun r => (JSBool true, r)) (strip_prefix (lit "true") (c :: s1))
          else if c =? 102 then
            option_map (fun r => (JSBool false, r)) (strip_prefix (lit "false") (c :: s1))
          else if c =? 110 then
            option_map (fun r => (JSNull, r)) (strip_prefix (lit "null") (c :: s1))
          else
            match number (c :: s1) with
            | Some (lexeme, rest) => Some (JSNumber lexeme, rest)
            | None => None
            end
      end
  end
with elements (fuel : nat) (s : jsstring) {struct fuel}
  : option (list JSValue * jsstring) :=
  match fuel with
  | O => None
  | S fuel' =>
      match value fuel' s with
      | None => None
      | Some (v, s1) =>
          match skip_ws s1 with
          | c :: s2 =>
              if c =? 93 then Some ([v], s2)
              else if c =? 44 then
                match elements fuel' s2 with
                | Some (vs, rest) => Some (v :: vs, rest)
                | None => None
                end
              else None
          | [] => None
          end
      end
  end
with members (fuel : nat) (s : jsstring) {struct fuel}
  : option (list (jsstring * JSValue) * jsstring) :=
  match fuel with
  | O => None
  | S fuel' =>
      match skip_ws s with
      | q :: s0 =>
          if q =? 34 then
            match string_body s0 with
            | None => None
            | Some (key, s1) =>
                match skip_ws s1 with
                | colon :: s2 =>
                    if colon =? 58 then
                      match value fuel' s2 with
                      | None => None
                      | Some (v, s3) =>
                          match skip_ws s3 with
                          | c :: s4 =>
                              if c =? 125 then Some ([(key, v)], s4)
                              else if c =? 44 then
                                match members fuel' s4 with
                                | Some (fs, rest) => Some ((key, v) :: fs, rest)
                                | None => None
                                end
                              else None
                          | [] => None
                          end
                      end
                    else None
                | [] => None
                end
            end
          else None
      | [] => None
      end
  end.

(** Every call above is made on a strict suffix of the text or follows one
    that was, so twice the length bounds the depth. *)
Definition enough (s : jsstring) : nat := 2 * List.length s + 2.

(** [JSON.parse(text)]: the value, or a [SyntaxError]. *)
Definition parse (s : jsstring) : Promise JSValue :=
  match value (enough s) s with
  | Some (v, rest) =>
      match skip_ws rest with
      | [] => Fulfilled v
      | _ :: _ => Rejected JsSyntaxError
      end
  | None => Rejected JsSyntaxError
  end.

(** The value of the last member named [k], as repeated names overwrite. *)
Fixpoint lookup (k : jsstring) (fs : list (jsstring * JSValue)) : option JSValue :=
  match fs with
  | [] => None
  | (k', v) :: fs' =>
      match lookup k fs' with
      | Some v' => Some v'
      | None => if str_eqb k' k then Some v else None
      end
  end.

End Json.

(* ================================================================== *)
(** ** [gemini.ts]: [generateQuiz] *)
(* ================================================================== *)

(** [`${x}`] for [x : string | undefined]. *)
Definition template_of (x : option jsstring) : jsstring :=
  match x with Some s => s | None => lit "undefined" end.

(** The string inside a [string | null] the code has just tested truthy. *)
Definition the_string (x : option jsstring) : jsstring :=
  match x with Some s => s | None => [] end.

Definition sketchPrompt (word sentence : jsstring) : jsstring :=
  let contextClause :=
    if truthy sentence
    then lit " and the context of the sentence: " ++ dq ++ sentence ++ dq
    else [] in
  lit "Turn this rough sketch into a high-quality, colorful, realistic illustration that clearly represents the concept of '"
    ++ word ++ lit "'" ++ contextClause
    ++ lit ". Do not include any text inside the generated image.".

Definition sketchRequest (word sentence drawing : jsstring) : Request :=
  {| model := imageModel;
     contents := PartsContents
       [ InlineDataPart (lit "image/png") (cleanBase64 drawing);
         TextPart (sketchPrompt word sentence) ];
     config := None |}.

Definition textToImageRequest (word sentence : jsstring) : Request :=
  {| model := imageModel;
     contents := PartsContents
       [ TextPart
           (lit "Create a high-quality, semi-realistic illustration for the following sentence: "
              ++ dq ++ sentence ++ dq
              ++ lit ". Focus visually on the concept of: " ++ word
              ++ lit ". No text in image.") ];
     config := None |}.

Definition quizSchema : Schema :=
  {| properties := [lit "originalSentence"; lit "blankedSentence"];
     required := [lit "originalSentence"; lit "blankedSentence"] |}.

Definition jsonConfig : Config :=
  {| responseMimeType := lit "application/json"; responseSchema := quizSchema |}.

Definition blankRequest (word sentence : jsstring) : Request :=
  {| model := textModel;
     contents := StringContents
       (lit "I have a sentence: " ++ dq ++ sentence ++ dq ++ lit ". " ++ nl
          ++ lit "      I have a target word: " ++ dq ++ word ++ dq ++ lit "." ++ nl
          ++ lit "      Return a JSON object with the " ++ dq ++ lit "originalSentence" ++ dq
          ++ lit " (as provided) and a " ++ dq ++ lit "blankedSentence" ++ dq
          ++ lit " where the target word (and any morphological variations of it) is replaced with "
          ++ dq ++ lit "______" ++ dq ++ lit ".");
     config := Some jsonConfig |}.

Definition authorRequest (word : jsstring) : Request :=
  {| model := textModel;
     contents := StringContents
       (lit "Write a clear, educational English example sentence using the word "
          ++ dq ++ word ++ dq ++ lit ". " ++ nl
          ++ lit "      Then, create a version of that sentence where the word "
          ++ dq ++ word ++ dq
          ++ lit " (and its variations like plurals/conjugations) is replaced by "
          ++ dq ++ lit "______" ++ dq ++ lit "." ++ nl
          ++ lit "      Return JSON.");
     config := Some jsonConfig |}.

(** The [for ... of] loop with its [break]: [finalImageUrl] starts empty and
    is set at the first part whose [inlineData] is there. *)
Fixpoint scanParts (ps : list Part) : jsstring :=
  match ps with
  | [] => []
  | part :: ps' =>
      match inlineData part with
      | Some blob => lit "data:image/png;base64," ++ template_of (blobData blob)
      | None => scanParts ps'
      end
  end.

(** [textData.originalSentence] and [textData.blankedSentence]: a read of a
    name no prototype defines. It throws on [null], finds the member on an
    object, and is [undefined] on everything else. *)
Definition getField (v : JSValue) (k : jsstring) : Promise JSValue :=
  match v with
  | JSNull | JSUndefined => Rejected JsTypeError
  | JSObject fs =>
      match Json.lookup k fs with
      | Some x => Fulfilled x
      | None => Fulfilled JSUndefined
      end
  | _ => Fulfilled JSUndefined
  end.

(** [textResponse.text || "{}"] *)
Definition jsonText (textResponse : GenerateContentResponse) : jsstring :=
  if truthy_opt (text textResponse) then the_string (text textResponse)
  else lit "{}".

Section Orchestrator.

(** The service: how the promise of each request ends. *)
Variable ai : Request -> ServiceOutcome.
(** Which of two rejections lands first (see [Promise_all]). *)
Variable imageSettlesFirst : bool.

(** [ai.models.generateContent(req)]: the request goes out, the promise
    comes back. *)
Definition promiseOf (o : ServiceOutcome) : Promise GenerateContentResponse :=
  match o with
  | Resolves response => Fulfilled response
  | RejectsWith reason => Rejected (ServiceRejection reason)
  | NeverSettles => Pending
  end.

Definition generateContent (req : Request)
  : Async (Promise GenerateContentResponse) :=
  fun log => (Fulfilled (promiseOf (ai req)), log ++ [req]).

Definition asGenerated (p : Promise GenerateContentResponse) : Promise ImageResult :=
  match p with
  | Fulfilled r => Fulfilled (Generated r)
  | Rejected e => Rejected e
  | Pending => Pending
  end.

(** Lines 25-71: [imagePromise]. *)
Definition prepareImage (word sentence : jsstring) (drawingBase64 : option jsstring)
    (mode : Mode) : Async (Promise ImageResult) :=
  match mode with
  | Submit =>
      if negb (truthy_opt drawingBase64) then throw ErrDrawingRequired
      else ret (Fulfilled (Original (the_string drawingBase64)))
  | Generate =>
      if truthy_opt drawingBase64 then
        p <- generateContent
               (sketchRequest word sentence (the_string drawingBase64)) ;;
        ret (asGenerated p)
      else if truthy (trim sentence) then
        p <- generateContent (textToImageRequest word sentence) ;;
        ret (asGenerated p)
      else throw ErrDrawingOrSentenceRequired
  end.

(** Lines 73-111: [textPromise]. *)
Definition prepareText (word sentence : jsstring)
  : Async (Promise GenerateContentResponse) :=
  if truthy (trim sentence)
  then generateContent (blankRequest word sentence)
  else generateContent (authorRequest word).

(** Lines 116-132: [finalImageUrl]. *)
Definition extractImage (imageResponse : ImageResult) : Async jsstring :=
  match imageResponse with
  | Original data => ret data
  | Generated response =>
      match candidates response with
      | None => ret []
      | Some cs =>
          match cs with
          | [] => throw JsTypeError               (* candidates[0] is undefined *)
          | c :: _ =>
              match content c with
              | None => throw JsTypeError         (* content is undefined *)
              | Some ct =>
                  match parts ct with
                  | None => ret []
                  | Some ps => ret (scanParts ps)
                  end
              end
          end
      end
  end.

(** Lines 138-147: parse the text and build the result. *)
Definition buildResult (word finalImageUrl : jsstring)
    (textResponse : GenerateContentResponse) : Async QuizResult :=
  textData <- await (Json.parse (jsonText textResponse)) ;;
  original <- await (getField textData (lit "originalSentence")) ;;
  blanked <- await (getField textData (lit "blankedSentence")) ;;
  ret {| imageUrl := finalImageUrl;
         originalSentence := original;
         blankedSentence := blanked;
         targetWord := word |}.

(** Lines 113-147: the join and the merge. *)
Definition merge (word : jsstring) (imagePromise : Promise ImageResult)
    (textPromise : Promise GenerateContentResponse) : Async QuizResult :=
  '(imageResponse, textResponse) <-
      await (Promise_all imageSettlesFirst imagePromise textPromise) ;;
  finalImageUrl <- extractImage imageResponse ;;
  if negb (truthy finalImageUrl) then throw ErrImageFailed
  else buildResult word finalImageUrl textResponse.

Definition generateQuiz (word sentence : jsstring) (drawingBase64 : option jsstring)
    (mode : Mode) : Async QuizResult :=
  imagePromise <- prepareImage word sentence drawingBase64 mode ;;
  textPromise <- prepareText word sentence ;;
  merge word imagePromise textPromise.

End Orchestrator.

(* ================================================================== *)
(** ** [DrawingCanvas.tsx]: the drawing surface *)
(* ================================================================== *)

Module DrawingCanvas.

Local Open Scope float_scope.

Record Point : Type := { x : float; y : float }.

(** What the handlers paint, in order. *)
Inductive Paint : Type :=
| FillWhite (w h : float)          (* fillStyle white, fillRect(0, 0, w, h) *)
| BeginPath
| MoveTo (p : Point)
| LineTo (p : Point)
| Stroke.

(** The canvas element behind [canvasRef.current]. *)
Record Canvas : Type := {
  width : float;
  height : float;
  has2d : bool;                    (* getContext('2d') is not null *)
  painted : list Paint
}.

Definition paint (c : Canvas) (ops : list Paint) : Canvas :=
  {| width := width c; height := height c; has2d := has2d c;
     painted := painted c ++ ops |}.

(** A mouse event, or a touch event with its first touch; and what
    [getBoundingClientRect] answers when the handler runs. *)
Inductive Pointer : Type :=
| Mouse (clientX clientY : float)
| Touch (first : float * float) (others : list (float * float)).

Record PointerEvent : Type := {
  pointer : Pointer;
  rectLeft : float;
  rectTop : float
}.

Definition getCoordinates (e : PointerEvent) : Point :=
  let (clientX, clientY) :=
    match pointer e with
    | Touch (tx, ty) _ => (tx, ty)
    | Mouse mx my => (mx, my)
    end in
  {| x := clientX - rectLeft e; y := clientY - rectTop e |}.

(** The component between two events: the two state hooks and the ref. *)
Record Surface : Type := {
  isDrawing : bool;
  hasDrawn : bool;
  canvasRef : option Canvas
}.

(** What a handler leaves: the next state and the calls of [onImageReady] it
    made, oldest first. *)
Definition Handled : Type := Surface * list (option jsstring).

Section Handlers.

(** [canvas.toDataURL('image/png')]. *)
Variable toDataURL : Canvas -> jsstring.

(** The mount effect: size the canvas, which empties it, and fill it
    white. *)
Definition mount (canvas : option Canvas) (offsetWidth : float) : Surface :=
  {| isDrawing := false; hasDrawn := false;
     canvasRef :=
       match canvas with
       | Some c =>
           let c' := {| width := offsetWidth; height := 300;
                        has2d := has2d c; painted := [] |} in
           Some (if has2d c then paint c' [FillWhite offsetWidth 300] else c')
       | None => None
       end |}.

Definition startDrawing (e : PointerEvent) (s : Surface) : Handled :=
  match canvasRef s with
  | None => (s, [])
  | Some canvas =>
      if negb (has2d canvas) then (s, [])
      else
        ({| isDrawing := true; hasDrawn := true;
            canvasRef := Some (paint canvas [BeginPath; MoveTo (getCoordinates e)]) |},
         [])
  end.

Definition draw (e : PointerEvent) (s : Surface) : Handled :=
  if negb (isDrawing s) then (s, [])
  else
    match canvasRef s with
    | None => (s, [])
    | Some canvas =>
        if negb (has2d canvas) then (s, [])
        else
          ({| isDrawing := isDrawing s; hasDrawn := hasDrawn s;
              canvasRef := Some (paint canvas [LineTo (getCoordinates e); Stroke]) |},
           [])
    end.

(** [exportCanvas] reads [hasDrawn] of the render its handler belongs to. *)
Definition exportCanvas (s : Surface) : list (option jsstring) :=
  match canvasRef s with
  | Some canvas => if hasDrawn s then [Some (toDataURL canvas)] else []
  | None => []
  end.

Definition stopDrawing (s : Surface) : Handled :=
  if negb (isDrawing s) then (s, [])
  else
    ({| isDrawing := false; hasDrawn := hasDrawn s; canvasRef := canvasRef s |},
     exportCanvas s).

Definition clearCanvas (s : Surface) : Handled :=
  match canvasRef s with
  | None => (s, [])
  | Some canvas =>
      if negb (has2d canvas) then (s, [])
      else
        ({| isDrawing := isDrawing s; hasDrawn := false;
            canvasRef := Some (paint canvas [FillWhite (width canvas) (height canvas)]) |},
         [None])
  end.

(** The events the component listens to. [Release] is mouse-up, mouse-leave
    and touch-end alike. *)
Inductive Event : Type :=
| Press (e : PointerEvent)
| Move (e : PointerEvent)
| Release
| Clear.

Definition handle (ev : Event) (s : Surface) : Handled :=
  match ev with
  | Press e => startDrawing e s
  | Move e => draw e s
  | Release => stopDrawing s
  | Clear => clearCanvas s
  end.

(** A sequence of events, each handled in the state the one before left. *)
Fixpoint play (evs : list Event) (s : Surface) : Handled :=
  match evs with
  | [] => (s, [])
  | ev :: evs' =>
      let (s1, calls1) := handle ev s in
      let (s2, calls2) := play evs' s1 in
      (s2, calls1 ++ calls2)
  end.

End Handlers.

(** The canvas is there with its 2d context, as it is once the component
    has mounted. *)
Definition ready (s : Surface) : Prop :=
  exists canvas, canvasRef s = Some canvas /\ has2d canvas = true.

End DrawingCanvas.

(* ================================================================== *)
(** ** [App.tsx]: [downloadImage] *)
(* ================================================================== *)

Module App.

Local Open Scope float_scope.

(** A JavaScript number holding a count or a pixel size (exact below
    2^53). *)
Definition num_of_nat (n : nat) : float :=
  PrimFloat.of_uint63 (Uint63.of_Z (Z.of_nat n)).
Definition num_of_N (n : N) : float :=
  PrimFloat.of_uint63 (Uint63.of_Z (Z.of_N n)).

(** [a > b] on numbers. *)
Definition gt (a b : float) : bool := PrimFloat.ltb b a.

(** The decoded image: [img.width] and [img.height]. *)
Record Image : Type := { imgWidth : N; imgHeight : N }.

Definition cardWidth : float := 1200.
Definition padding : float := 60.
Definition lineHeight : float := 70.
Definition textMaxWidth : float := cardWidth - (padding * 2).

(** [img.height > 0 ? img.height / img.width : 1] *)
Definition aspectRatio (img : Image) : float :=
  if gt (num_of_N (imgHeight img)) 0
  then num_of_N (imgHeight img) / num_of_N (imgWidth img)
  else 1.

(** The height the image is drawn at. *)
Definition scaledHeight (img : Image) : float := cardWidth * aspectRatio img.

(** What is drawn on the card, in order. *)
Inductive Drawn : Type :=
| Background (w h : float)
| Picture (img : Image) (w h : float)
| Separator (y : float)
| TextLine (s : jsstring) (x y : float)
| Watermark (x y : float).

(** The power of two a negative exponent divides by. *)
Definition scale (e : Z) : positive := Pos.pow 2 (Z.to_pos (- e)).

(** The integer part of a number, towards zero; 0 for NaN and the
    infinities. *)
Definition truncate (x : float) : Z :=
  match Prim2SF x with
  | S754_finite s m e =>
      let magnitude :=
        if (0 <=? e)%Z then (Z.pos m * 2 ^ e)%Z else (Z.pos m / Z.pos (scale e))%Z in
      if s then (- magnitude)%Z else magnitude
  | _ => 0%Z
  end.

(** The conversion of a number to an [unsigned long], as an assignment to
    [canvas.width] or [canvas.height] makes it: the integer part, modulo
    2^32. *)
Definition toUnsignedLong (x : float) : Z := (truncate x mod 2 ^ 32)%Z.

(** What [canvas.width] or [canvas.height] reads after the number [x] was
    assigned to it: the converted value, or the attribute's default when
    that is above 2^31 - 1. *)
Definition canvasSize (default : Z) (x : float) : Z :=
  let n := toUnsignedLong x in
  if (n <=? 2147483647)%Z then n else default.

(** An integer size read back as a number. *)
Definition num_of_Z (z : Z) : float := PrimFloat.of_uint63 (Uint63.of_Z z).

(** The rational a finite number stands for. *)
Definition exactValue (x : float) : option Q :=
  match Prim2SF x with
  | S754_zero _ => Some (inject_Z 0)
  | S754_finite s m e =>
      let v := if (0 <=? e)%Z then inject_Z (Z.pos m * 2 ^ e) else Qmake (Z.pos m) (scale e) in
      Some (if s then Qopp v else v)
  | _ => None
  end.

(** The offscreen canvas when the download link is made: [canvas.width] and
    [canvas.height] as they read after the assignments of lines 140-141, the
    wrapped lines, and what was drawn. *)
Record Card : Type := {
  width : Z;
  height : Z;
  lines : list jsstring;
  drawn : list Drawn
}.

(** The click on the synthetic link. *)
Record Download : Type := { filename : jsstring; href : jsstring }.

Section Browser.

(** How loading [img.src] ends: [onload] with the decoded image, or
    [onerror]. *)
Variable loadImage : jsstring -> option Image.
(** Whether [getContext('2d')] answers a context. *)
Variable has2d : bool.
(** [ctx.measureText(s).width] at the font [bold 48px serif]. *)
Variable measureText : jsstring -> float.
(** [canvas.toDataURL('image/png')], or [None] when it throws. *)
Variable toDataURL : Card -> option jsstring.

(** One turn of the wrapping loop: the index, the current line, the lines
    pushed so far. *)
Definition wrapStep (st : nat * jsstring * list jsstring) (word : jsstring)
  : nat * jsstring * list jsstring :=
  let '(n, line, pushed) := st in
  let testLine := line ++ word ++ lit " " in
  let testWidth := measureText testLine in
  if gt testWidth textMaxWidth && Nat.ltb 0 n
  then (S n, word ++ lit " ", pushed ++ [line])
  else (S n, testLine, pushed).

(** Lines 118-133. *)
Definition wrapText (sentence : jsstring) : list jsstring :=
  let words := split_on 32 sentence in
  let '(_, line, pushed) := fold_left wrapStep words (O, [], []) in
  pushed ++ [line].

Definition textSectionHeight (ls : list jsstring) : float :=
  (num_of_nat (List.length ls) * lineHeight) + (padding * 2).

(** [yPos] of line [i]. *)
Definition yPos (imgH : float) (i : nat) : float :=
  imgH + padding + (num_of_nat i * lineHeight) + (lineHeight / 2).

Fixpoint textLines (imgH : float) (i : nat) (ls : list jsstring) : list Drawn :=
  match ls with
  | [] => []
  | l :: ls' => TextLine (trim l) (cardWidth / 2) (yPos imgH i) :: textLines imgH (S i) ls'
  end.

(** Lines 135-137: [totalHeight]. *)
Definition totalHeight (img : Image) (sentence : jsstring) : float :=
  scaledHeight img + textSectionHeight (wrapText sentence).

(** Lines 105-174: the card for a decoded image and a sentence. The canvas
    takes its size from [cardWidth] and [totalHeight]; the background is
    filled over the size the canvas then reports, the rest is placed by the
    numbers the code computed. *)
Definition composeCard (img : Image) (sentence : jsstring) : Card :=
  let imgH := scaledHeight img in
  let ls := wrapText sentence in
  let total := totalHeight img sentence in
  let canvasWidth := canvasSize 300 cardWidth in
  let canvasHeight := canvasSize 150 total in
  {| width := canvasWidth;
     height := canvasHeight;
     lines := ls;
     drawn :=
       [Background (num_of_Z canvasWidth) (num_of_Z canvasHeight);
        Picture img cardWidth imgH; Separator imgH]
         ++ textLines imgH O ls
         ++ [Watermark (cardWidth - 30) (total - 20)] |}.

(** The name given on the card path, line 178. *)
Definition cardFilename (targetWord : jsstring) : jsstring :=
  lit "visual-vocab-" ++ replace_ws_runs (lit "_") false targetWord ++ lit ".png".

(** The name given on the fallback path, line 189. *)
Definition fallbackFilename (targetWord : jsstring) : jsstring :=
  lit "visual-vocab-" ++ targetWord ++ lit ".png".

(** The body of [try]: the download of the card, or [None] when anything
    in it throws. *)
Definition tryCard (result : QuizResult) : option (Card * Download) :=
  match loadImage (imageUrl result) with
  | None => None                                   (* onerror rejects *)
  | Some img =>
      if negb has2d then None                      (* no canvas context *)
      else
        match blankedSentence result with
        | JSString sentence =>
            let card := composeCard img sentence in
            match toDataURL card with
            | Some url =>
                Some (card, {| filename := cardFilename (targetWord result);
                               href := url |})
            | None => None
            end
        | _ => None                                (* split is not there *)
        end
  end.

Inductive Path : Type := CardPath (card : Card) | FallbackPath.

(** [downloadImage]: nothing without a result, else one download, taken
    on one of the two paths. *)
Definition downloadImage (result : option QuizResult) : option (Path * Download) :=
  match result with
  | None => None
  | Some r =>
      match tryCard r with
      | Some (card, d) => Some (CardPath card, d)
      | None =>
          Some (FallbackPath,
                {| filename := fallbackFilename (targetWord r);
                   href := imageUrl r |})
      end
  end.

(** Spec wording of the wrap: append words to the current line until adding
    the next would exceed the maximum width, then start a new line. *)
Fixpoint greedyFrom (line : jsstring) (words : list jsstring) : list jsstring :=
  match words with
  | [] => [line]
  | word :: words' =>
      if gt (measureText (line ++ word ++ lit " ")) textMaxWidth
      then line :: greedyFrom (word ++ lit " ") words'
      else greedyFrom (line ++ word ++ lit " ") words'
  end.

Definition greedyWrap (words : list jsstring) : list jsstring :=
  match words with
  | [] => [[]]
  | word :: words' => greedyFrom (word ++ lit " ") words'
  end.

End Browser.

End App.

(* ================================================================== *)
(** ** [App.tsx]: [handleQuizGeneration] and the owner of the drawing *)
(* ================================================================== *)

Module Shell.

Inductive Feedback : Type := Correct | Incorrect.

(** The state hooks of [App] that the form and the quiz use. *)
Record State : Type := {
  word : jsstring;
  sentence : jsstring;
  drawingData : option jsstring;
  isLoading : bool;
  result : option QuizResult;
  userGuess : jsstring;
  feedback : option Feedback;
  error : option jsstring
}.

(** The state [useState] starts from. *)
Definition initial : State :=
  {| word := []; sentence := []; drawingData := None; isLoading := false;
     result := None; userGuess := []; feedback := None; error := None |}.

(** [onImageReady={setDrawingData}]: the owner keeps what the surface passed
    last. *)
Definition receive (held : option jsstring) (calls : list (option jsstring))
  : option jsstring :=
  fold_left (fun _ call => call) calls held.

(** The four resets [handleQuizGeneration] opens with. *)
Definition cleared (s : State) : State :=
  {| word := word s; sentence := sentence s; drawingData := drawingData s;
     isLoading := isLoading s;
     result := None; userGuess := []; feedback := None; error := None |}.

Definition withError (msg : jsstring) (s : State) : State :=
  {| word := word s; sentence := sentence s; drawingData := drawingData s;
     isLoading := isLoading s;
     result := result s; userGuess := userGuess s; feedback := feedback s;
     error := Some msg |}.

Definition withLoading (b : bool) (s : State) : State :=
  {| word := word s; sentence := sentence s; drawingData := drawingData s;
     isLoading := b;
     result := result s; userGuess := userGuess s; feedback := feedback s;
     error := error s |}.

Definition withResult (data : QuizResult) (s : State) : State :=
  {| word := word s; sentence := sentence s; drawingData := drawingData s;
     isLoading := isLoading s;
     result := Some data; userGuess := userGuess s; feedback := feedback s;
     error := error s |}.

Definition msgNoWord : jsstring := lit "Please enter a target word.".
Definition msgNoDrawing : jsstring := lit "Please draw a picture to use 'Submit' mode.".
Definition msgNoInput : jsstring :=
  lit "Please provide either an example sentence OR a drawing for generation.".
Definition msgGeneric : jsstring := lit "An error occurred while creating the quiz.".

(** The message of the first check of lines 37-50 that fails. *)
Definition refusal (mode : Mode) (s : State) : option jsstring :=
  if negb (truthy (trim (word s))) then Some msgNoWord
  else
    match mode with
    | Submit =>
        if negb (truthy_opt (drawingData s)) then Some msgNoDrawing else None
    | Generate =>
        if negb (truthy (trim (sentence s))) && negb (truthy_opt (drawingData s))
        then Some msgNoInput else None
    end.

Section Run.

(** The service and the order of two rejections, as for [generateQuiz]. *)
Variable ai : Request -> ServiceOutcome.
Variable imageSettlesFirst : bool.
(** The message the runtime gives the errors it constructs itself. *)
Variable runtimeMessage : Exn -> jsstring.

(** [err.message]: the literal of an error the module constructs, the reason
    of a service rejection, the runtime's text otherwise. *)
Definition errMessage (err : Exn) : jsstring :=
  match err with
  | JsTypeError | JsSyntaxError => runtimeMessage err
  | _ => message err
  end.

(** [handleQuizGeneration(mode)], with no other handler running while the
    call is awaited: the state it leaves and the requests that went out. When
    the call never settles the state is the one it waits in. *)
Definition handleQuizGeneration (mode : Mode) (s : State) : State * list Request :=
  let s0 := cleared s in
  match refusal mode s with
  | Some msg => (withError msg s0, [])
  | None =>
      let s1 := withLoading true s0 in
      let (ended, sent) :=
        run (generateQuiz ai imageSettlesFirst (word s) (sentence s) (drawingData s) mode) in
      match ended with
      | Fulfilled data => (withLoading false (withResult data s1), sent)
      | Rejected err =>
          (withLoading false
             (withError (if truthy (errMessage err) then errMessage err else msgGeneric) s1),
           sent)
      | Pending => (s1, sent)
      end
  end.

End Run.

End Shell.

(* ================================================================== *)
(** ** Vocabulary of the properties *)
(* ================================================================== *)

(** The drawing is null or empty. *)
Definition drawing_missing (drawing : option jsstring) : Prop :=
  drawing = None \/ drawing = Some [].

(** The sentence is empty or holds white space only. *)
Definition blank (sentence : jsstring) : Prop :=
  Forall (fun c => isWhiteSpace c = true) sentence.

(** The inputs a mode requires are not there. *)
Definition inputs_missing (mode : Mode) (drawing : option jsstring)
    (sentence : jsstring) : Prop :=
  (mode = Submit /\ drawing_missing drawing)
  \/ (mode = Generate /\ drawing_missing drawing /\ blank sentence).

(** The text request of a call: both arms of lines 87-111. *)
Definition textRequest (word sentence : jsstring) : Request :=
  if truthy (trim sentence) then blankRequest word sentence else authorRequest word.

(** The image request of a generate call: the two arms of lines 39-67. *)
Definition imageRequest (word sentence : jsstring) (drawing : option jsstring) : Request :=
  if truthy_opt drawing then sketchRequest word sentence (the_string drawing)
  else textToImageRequest word sentence.

(** The mode's required inputs are there, as the code tests it. *)
Definition inputs_given (mode : Mode) (drawing : option jsstring)
    (sentence : jsstring) : bool :=
  match mode with
  | Submit => truthy_opt drawing
  | Generate => truthy_opt drawing || truthy (trim sentence)
  end.

(** The error of the mode's rule. *)
Definition validation_error (mode : Mode) : Exn :=
  match mode with
  | Submit => ErrDrawingRequired
  | Generate => ErrDrawingOrSentenceRequired
  end.

(** The image promise of a call whose inputs pass validation. *)
Definition imagePromise (ai : Request -> ServiceOutcome) (word sentence : jsstring)
    (drawing : option jsstring) (mode : Mode) : Promise ImageResult :=
  match mode with
  | Submit => Fulfilled (Original (the_string drawing))
  | Generate => asGenerated (promiseOf (ai (imageRequest word sentence drawing)))
  end.

(** The requests of a call whose inputs pass validation. *)
Definition issued (word sentence : jsstring) (drawing : option jsstring)
    (mode : Mode) : list Request :=
  match mode with
  | Submit => [textRequest word sentence]
  | Generate => [imageRequest word sentence drawing; textRequest word sentence]
  end.

(** A non-empty string. *)
Definition nonempty_string (v : JSValue) : bool :=
  match v with
  | JSString (_ :: _) => true
  | _ => false
  end.

(** The member [k] of a parsed value, [undefined] when there is none. *)
Definition memberOf (v : JSValue) (k : jsstring) : JSValue :=
  match v with
  | JSObject fs =>
      match Json.lookup k fs with
      | Some x => x
      | None => JSUndefined
      end
  | _ => JSUndefined
  end.

(** The parts the loop of lines 125-130 visits: those of
    [candidates[0].content.parts], and none when [candidates] or [parts] is
    missing (the guard of line 124 skips the loop). [None] when reading the
    path throws: the candidate list is empty, or its first candidate has no
    content. *)
Definition scannedParts (response : GenerateContentResponse) : option (list Part) :=
  match candidates response with
  | None => Some []
  | Some [] => None
  | Some (c :: _) =>
      match content c with
      | None => None
      | Some ct => Some (match parts ct with Some ps => ps | None => [] end)
      end
  end.

(** A square image of side [n]. *)
Definition squareOf (n : nat) : App.Image :=
  {| App.imgWidth := N.of_nat n; App.imgHeight := N.of_nat n |}.

(** The part carries no inline data. *)
Definition no_inline (part : Part) : Prop := inlineData part = None.

(* ================================================================== *)
(** ** Sample data for the concrete runs *)
(* ================================================================== *)

Module Sample.

Definition word : jsstring := lit "improve".
Definition sentence : jsstring := lit "She worked hard to improve the design.".
Definition drawing : jsstring := lit "data:image/png;base64,iVBORw0KGgo=".

(** The JSON text the schema asks for. *)
Definition quizJson : jsstring :=
  lit "{" ++ dq ++ lit "originalSentence" ++ dq ++ lit ": "
    ++ dq ++ lit "She worked hard to improve the design." ++ dq ++ lit ", "
    ++ dq ++ lit "blankedSentence" ++ dq ++ lit ": "
    ++ dq ++ lit "She worked hard to ______ the design." ++ dq ++ lit "}".

Definition textOnly (t : option jsstring) : GenerateContentResponse :=
  {| candidates := None; text := t |}.

Definition withParts (ps : list Part) : GenerateContentResponse :=
  {| candidates := Some [ {| content := Some {| parts := Some ps |} |} ];
     text := None |}.

Definition captionPart : Part :=
  {| inlineData := None; partText := Some (lit "Here is your illustration.") |}.

Definition picturePart (data : jsstring) : Part :=
  {| inlineData := Some {| blobMimeType := Some (lit "image/png"); blobData := Some data |};
     partText := None |}.

(** A service that answers an image request with [image] and a text request
    with [txt]. *)
Definition service (image txt : ServiceOutcome) (req : Request) : ServiceOutcome :=
  if is_image_request req then image else txt.

(** Both requests answered in full. *)
Definition goodService : Request -> ServiceOutcome :=
  service
    (Resolves (withParts [captionPart; picturePart (lit "AAAA"); picturePart (lit "BBBB")]))
    (Resolves (textOnly (Some quizJson))).

(** The text answer carries no text. *)
Definition silentService : Request -> ServiceOutcome :=
  service (Resolves (withParts [picturePart (lit "AAAA")])) (Resolves (textOnly None)).

(** The image answer has an empty candidate list. *)
Definition noCandidateService : Request -> ServiceOutcome :=
  service (Resolves {| candidates := Some []; text := None |})
          (Resolves (textOnly (Some quizJson))).

(** The image answer has a candidate without content. *)
Definition noContentService : Request -> ServiceOutcome :=
  service (Resolves {| candidates := Some [ {| content := None |} ]; text := None |})
          (Resolves (textOnly (Some quizJson))).

(** The image answer has parts, none with inline data. *)
Definition captionOnlyService : Request -> ServiceOutcome :=
  service (Resolves (withParts [captionPart])) (Resolves (textOnly (Some quizJson))).

(** The image request is rejected; the text request never settles. *)
Definition failingService : Request -> ServiceOutcome :=
  service (RejectsWith (lit "quota exceeded")) NeverSettles.

(** The image answer has two candidates; only the second holds an image. *)
Definition twoCandidates : GenerateContentResponse :=
  {| candidates :=
       Some [ {| content := Some {| parts := Some [captionPart] |} |};
              {| content := Some {| parts := Some [picturePart (lit "AAAA")] |} |} ];
     text := None |}.

Definition secondCandidateService : Request -> ServiceOutcome :=
  service (Resolves twoCandidates) (Resolves (textOnly (Some quizJson))).


End Sample.

(* ================================================================== *)
(** ** Sample data for the surface and the download *)
(* ================================================================== *)

Module SampleUi.

Local Open Scope float_scope.

(** A canvas element with its 2d context, nothing painted yet. *)
Definition canvas : DrawingCanvas.Canvas :=
  {| DrawingCanvas.width := 300; DrawingCanvas.height := 150;
     DrawingCanvas.has2d := true; DrawingCanvas.painted := [] |}.

(** An encoder: the png header and one letter per paint operation. *)
Definition encode (c : DrawingCanvas.Canvas) : jsstring :=
  lit "data:image/png;base64," ++ List.map (fun _ => 65%N) (DrawingCanvas.painted c).

Definition at_ (cx cy : float) : DrawingCanvas.PointerEvent :=
  {| DrawingCanvas.pointer := DrawingCanvas.Mouse cx cy;
     DrawingCanvas.rectLeft := 8; DrawingCanvas.rectTop := 64 |}.

(** A text measure of 30 pixels per code unit. *)
Definition measure (s : jsstring) : float := App.num_of_nat (List.length s) * 30.

Definition render (card : App.Card) : option jsstring :=
  Some (lit "data:image/png;base64,Q0FSRA==").

Definition square : App.Image := {| App.imgWidth := 1024; App.imgHeight := 1024 |}.

(** An image 1000 wide and 333 high. *)
Definition wide : App.Image := {| App.imgWidth := 1000; App.imgHeight := 333 |}.

Definition decodes (url : jsstring) : option App.Image := Some square.
Definition breaks (url : jsstring) : option App.Image := None.

(** A blanked sentence of 83 code units: three lines at 36 per line. *)
Definition blanked : jsstring :=
  lit "She worked hard to ______ the design of the small solar battery before the launch.".

Definition result (targetWord : jsstring) : QuizResult :=
  {| imageUrl := lit "data:image/png;base64,iVBORw0KGgo=";
     originalSentence :=
       JSString (lit "She worked hard to improve the design of the small solar battery before the launch.");
     blankedSentence := JSString blanked;
     targetWord := targetWord |}.

(** One stroke: a press, two moves, a release. *)
Definition stroke : list DrawingCanvas.Event :=
  DrawingCanvas.Press (at_ 10 70)
    :: List.map DrawingCanvas.Move [at_ 20 80; at_ 30 75] ++ [DrawingCanvas.Release].

(** The surface once mounted, and after one stroke. *)
Definition mounted : DrawingCanvas.Surface := DrawingCanvas.mount (Some canvas) 400.
Definition drawnOn : DrawingCanvas.Surface := fst (DrawingCanvas.play encode stroke mounted).

End SampleUi.

(* ================================================================== *)
(** ** Vocabulary of the further properties *)
(* ================================================================== *)

(** What a run of moves paints while the button is down. *)
Definition segments (moves : list DrawingCanvas.PointerEvent) : list DrawingCanvas.Paint :=
  flat_map (fun e => [DrawingCanvas.LineTo (DrawingCanvas.getCoordinates e);
                      DrawingCanvas.Stroke]) moves.

(** The line is not wider than the text column, as the loop tests it. *)
Definition fits (measureText : jsstring -> float) (line : jsstring) : Prop :=
  App.gt (measureText line) App.textMaxWidth = false.

(** No code unit of the string is white space. *)
Definition spaceless (s : jsstring) : bool :=
  forallb (fun c => negb (isWhiteSpace c)) s.

(** The result [generateQuiz] builds around an image and a parsed text. *)
Definition quizOf (word url : jsstring) (textData : JSValue) : QuizResult :=
  {| imageUrl := url;
     originalSentence := memberOf textData (lit "originalSentence");
     blankedSentence := memberOf textData (lit "blankedSentence");
     targetWord := word |}.

Module SampleShell.

(** The form filled in for a submit, and for a generate without drawing. *)
Definition filled : Shell.State :=
  {| Shell.word := Sample.word; Shell.sentence := Sample.sentence;
     Shell.drawingData := Some Sample.drawing; Shell.isLoading := false;
     Shell.result := None; Shell.userGuess := lit "old guess";
     Shell.feedback := Some Shell.Incorrect; Shell.error := Some (lit "old error") |}.

Definition noWord : Shell.State :=
  {| Shell.word := lit "  "; Shell.sentence := Sample.sentence;
     Shell.drawingData := Some Sample.drawing; Shell.isLoading := false;
     Shell.result := Some (SampleUi.result Sample.word); Shell.userGuess := [];
     Shell.feedback := None; Shell.error := None |}.

(** A runtime whose errors carry no message. *)
Definition mute (e : Exn) : jsstring := [].

End SampleShell.

(* ================================================================== *)
(** ** Strings *)
(* ================================================================== *)

Lemma strip_prefix_app (h p : jsstring) : strip_prefix h (h ++ p) = Some p.
Proof.
  induction h as [|c h IH]; simpl.
  - now destruct p.
  - now rewrite N.eqb_refl.
Qed.

Lemma strip_prefix_Some (h s rest : jsstring) :
  strip_prefix h s = Some rest -> s = h ++ rest.
Proof.
  revert s; induction h as [|c h IH]; intros s H.
  - destruct s; simpl in H; now inversion H.
  - destruct s as [|d s]; simpl in H; [discriminate|].
    destruct (N.eqb_spec c d) as [->|]; [|discriminate].
    simpl. f_equal. now apply IH.
Qed.

Lemma strip_first_unchanged (hs : list jsstring) (s : jsstring) :
  (forall h p, In h hs -> s <> h ++ p) -> strip_first hs s = s.
Proof.
  induction hs as [|h hs IH]; intros Hno; simpl; [reflexivity|].
  destruct (strip_prefix h s) as [rest|] eqn:E.
  - exfalso. apply (Hno h rest); [now left | now apply strip_prefix_Some].
  - apply IH. intros h' p Hin. apply Hno. now right.
Qed.

Lemma trimStart_nil (s : jsstring) :
  trimStart s = [] <-> blank s.
Proof.
  unfold blank. induction s as [|c s IH]; simpl.
  - split; auto.
  - destruct (isWhiteSpace c) eqn:E.
    + rewrite IH. split; intro H; [now constructor | now inversion H].
    + split; intro H; [discriminate | inversion H; congruence].
Qed.

Lemma trimStart_blank (s : jsstring) : blank (trimStart s) -> trimStart s = [].
Proof.
  induction s as [|c s IH]; simpl; auto.
  destruct (isWhiteSpace c) eqn:E; auto.
  intro H. inversion H; congruence.
Qed.

Lemma blank_rev (s : jsstring) : blank (rev s) <-> blank s.
Proof.
  unfold blank. rewrite !Forall_forall.
  split; intros H c Hc; apply H; [now apply -> in_rev | now apply in_rev].
Qed.

(** [sentence.trim()] is falsy exactly on a blank sentence. *)
Lemma trim_falsy (s : jsstring) : truthy (trim s) = false <-> blank s.
Proof.
  assert (Hnil : forall l : jsstring, truthy l = false <-> l = []).
  { intros [|? ?]; simpl; split; congruence. }
  rewrite Hnil. unfold trim, trimEnd. split.
  - intro H. apply (f_equal (@rev N)) in H. rewrite rev_involutive in H. simpl in H.
    apply trimStart_nil in H. apply -> blank_rev in H.
    apply trimStart_nil. now apply trimStart_blank.
  - intro H. apply trimStart_nil in H. rewrite H. reflexivity.
Qed.

Lemma truthy_opt_false (d : option jsstring) :
  truthy_opt d = false <-> drawing_missing d.
Proof.
  unfold drawing_missing. destruct d as [[|c d]|]; simpl; split; intro H;
    try tauto; try discriminate; destruct H; discriminate.
Qed.

(* ================================================================== *)
(** ** [JSON.parse]: the fuel is enough *)
(* ================================================================== *)

Section JsonFuel.

Import Json.
Local Open Scope N_scope.

Lemma skip_ws_length s : (List.length (skip_ws s) <= List.length s)%nat.
Proof. induction s as [|c s IH]; simpl; [lia|]. destruct (is_ws c); simpl; lia. Qed.

Lemma skip_ws_cons s c s' : skip_ws s = c :: s' -> (List.length s' < List.length s)%nat.
Proof.
  intro H. pose proof (skip_ws_length s) as L. rewrite H in L. simpl in L. lia.
Qed.

Lemma string_body_length : forall n s body rest,
  (List.length s <= n)%nat ->
  string_body s = Some (body, rest) -> (List.length rest < List.length s)%nat.
Proof.
  induction n as [|n IH]; intros s body rest Hn H.
  - destruct s; [discriminate | simpl in Hn; lia].
  - destruct s as [|c s1]; [discriminate|]. simpl in Hn.
    cbn [string_body] in H.
    destruct (c =? 34).
    { injection H as _ <-. simpl; lia. }
    destruct (c =? 92).
    { destruct s1 as [|e s2]; [discriminate|].
      destruct (e =? 117).
      - destruct s2 as [|h1 [|h2 [|h3 [|h4 s3]]]]; try discriminate.
        destruct (hex4 h1 h2 h3 h4); [|discriminate].
        destruct (string_body s3) as [[b r]|] eqn:E; [|discriminate].
        injection H as _ <-. apply IH in E; simpl in *; lia.
      - destruct (simple_escape e); [|discriminate].
        destruct (string_body s2) as [[b r]|] eqn:E; [|discriminate].
        injection H as _ <-. apply IH in E; simpl in *; lia. }
    destruct (c <? 32); [discriminate|].
    destruct (string_body s1) as [[b r]|] eqn:E; [|discriminate].
    injection H as _ <-. apply IH in E; simpl in *; lia.
Qed.

Lemma take_digits_length s : (List.length (snd (take_digits s)) <= List.length s)%nat.
Proof.
  induction s as [|c s IH]; simpl; [lia|].
  destruct (is_digit c); simpl; [|lia].
  destruct (take_digits s); simpl in *; lia.
Qed.

Lemma take_digits_digit d s :
  is_digit d = true -> (List.length (snd (take_digits (d :: s))) <= List.length s)%nat.
Proof.
  intro H. simpl. rewrite H. pose proof (take_digits_length s).
  destruct (take_digits s); simpl in *; lia.
Qed.

Lemma int_part_length s whole rest :
  int_part s = Some (whole, rest) -> (List.length rest < List.length s)%nat.
Proof.
  unfold int_part. destruct s as [|d s']; [discriminate|].
  destruct (is_digit d) eqn:Ed; [|discriminate].
  destruct (d =? 48).
  - intro H; injection H as _ <-. simpl; lia.
  - intro H. pose proof (@take_digits_digit d s' Ed) as L.
    assert (H' : take_digits (d :: s') = (whole, rest)) by congruence.
    rewrite H' in L. simpl in L. simpl. lia.
Qed.

Lemma frac_part_length s fr rest :
  frac_part s = Some (fr, rest) -> (List.length rest <= List.length s)%nat.
Proof.
  unfold frac_part. destruct s as [|p s']; [intro H; injection H as _ <-; lia|].
  destruct (p =? 46).
  - pose proof (take_digits_length s') as L.
    destruct (take_digits s') as [[|d ds] r]; [discriminate|].
    intro H; injection H as _ <-. simpl in *; lia.
  - intro H; injection H as _ <-. lia.
Qed.

Lemma exp_part_length s ex rest :
  exp_part s = Some (ex, rest) -> (List.length rest <= List.length s)%nat.
Proof.
  unfold exp_part. destruct s as [|e s']; [intro H; injection H as _ <-; lia|].
  destruct ((e =? 101) || (e =? 69)).
  - assert (Hs : (List.length (snd (opt_sign s')) <= List.length s')%nat).
    { unfold opt_sign. destruct s' as [|g s'']; simpl; [lia|].
      destruct ((g =? 43) || (g =? 45)); simpl; lia. }
    destruct (opt_sign s') as [sg s1]. simpl in Hs.
    pose proof (take_digits_length s1) as L.
    destruct (take_digits s1) as [[|d ds] r]; [discriminate|].
    intro H; injection H as _ <-. simpl in *; lia.
  - intro H; injection H as _ <-. lia.
Qed.

Lemma number_length s lexeme rest :
  number s = Some (lexeme, rest) -> (List.length rest < List.length s)%nat.
Proof.
  unfold number.
  assert (Hm : (List.length (snd (opt_minus s)) <= List.length s)%nat).
  { unfold opt_minus. destruct s as [|c s']; simpl; [lia|].
    destruct (c =? 45); simpl; lia. }
  destruct (opt_minus s) as [sign s0]. simpl in Hm.
  destruct (int_part s0) as [[whole s1]|] eqn:Ei; [|discriminate].
  destruct (frac_part s1) as [[fr s2]|] eqn:Ef; [|discriminate].
  destruct (exp_part s2) as [[ex s3]|] eqn:Ee; [|discriminate].
  intro H; injection H as _ <-.
  apply int_part_length in Ei. apply frac_part_length in Ef. apply exp_part_length in Ee.
  lia.
Qed.

Lemma strip_prefix_length p s rest :
  strip_prefix p s = Some rest -> List.length s = (List.length p + List.length rest)%nat.
Proof.
  intro H. apply strip_prefix_Some in H. subst. apply length_app.
Qed.

(** What a parser returns is shorter than what it was given. *)
Lemma parsers_consume fuel :
  (forall s v rest, value fuel s = Some (v, rest) -> (List.length rest < List.length s)%nat)
  /\ (forall s vs rest, elements fuel s = Some (vs, rest) -> (List.length rest < List.length s)%nat)
  /\ (forall s fs rest, members fuel s = Some (fs, rest) -> (List.length rest < List.length s)%nat).
Proof.
  induction fuel as [|fuel (IHv & IHe & IHm)].
  - repeat split; intros; discriminate.
  - split; [|split].
    + intros s v rest. cbn [value].
      destruct (skip_ws s) as [|c s1] eqn:Es; [discriminate|].
      apply skip_ws_cons in Es.
      destruct (c =? 34).
      { destruct (string_body s1) as [[str r]|] eqn:E; [|discriminate].
        intro H; injection H as _ <-.
        apply (@string_body_length (List.length s1)) in E; lia. }
      destruct (c =? 123).
      { destruct (skip_ws s1) as [|c' s2] eqn:Es1; [discriminate|].
        apply skip_ws_cons in Es1.
        destruct (c' =? 125).
        - intro H; injection H as _ <-. lia.
        - destruct (members fuel s1) as [[fs r]|] eqn:E; [|discriminate].
          intro H; injection H as _ <-. apply IHm in E. lia. }
      destruct (c =? 91).
      { destruct (skip_ws s1) as [|c' s2] eqn:Es1; [discriminate|].
        apply skip_ws_cons in Es1.
        destruct (c' =? 93).
        - intro H; injection H as _ <-. lia.
        - destruct (elements fuel s1) as [[vs r]|] eqn:E; [|discriminate].
          intro H; injection H as _ <-. apply IHe in E. lia. }
      destruct (c =? 116).
      { destruct (strip_prefix (lit "true") (c :: s1)) as [r|] eqn:E; [|discriminate].
        intro H; injection H as _ <-. apply strip_prefix_length in E. simpl in E. lia. }
      destruct (c =? 102).
      { destruct (strip_prefix (lit "false") (c :: s1)) as [r|] eqn:E; [|discriminate].
        intro H; injection H as _ <-. apply strip_prefix_length in E. simpl in E. lia. }
      destruct (c =? 110).
      { destruct (strip_prefix (lit "null") (c :: s1)) as [r|] eqn:E; [|discriminate].
        intro H; injection H as _ <-. apply strip_prefix_length in E. simpl in E. lia. }
      destruct (number (c :: s1)) as [[lx r]|] eqn:E; [|discriminate].
      intro H; injection H as _ <-. apply number_length in E. simpl in E. lia.
    + intros s vs rest. cbn [elements].
      destruct (value fuel s) as [[v s1]|] eqn:Ev; [|discriminate].
      apply IHv in Ev.
      destruct (skip_ws s1) as [|c s2] eqn:Es; [discriminate|].
      apply skip_ws_cons in Es.
      destruct (c =? 93); [intro H; injection H as _ <-; lia|].
      destruct (c =? 44); [|discriminate].
      destruct (elements fuel s2) as [[vs' r]|] eqn:E; [|discriminate].
      intro H; injection H as _ <-. apply IHe in E. lia.
    + intros s fs rest. cbn [members].
      destruct (skip_ws s) as [|q s0] eqn:Es; [discriminate|].
      apply skip_ws_cons in Es.
      destruct (q =? 34); [|discriminate].
      destruct (string_body s0) as [[key s1]|] eqn:Ek; [|discriminate].
      apply (@string_body_length (List.length s0)) in Ek; [|lia].
      destruct (skip_ws s1) as [|colon s2] eqn:Es1; [discriminate|].
      apply skip_ws_cons in Es1.
      destruct (colon =? 58); [|discriminate].
      destruct (value fuel s2) as [[v s3]|] eqn:Ev; [|discriminate].
      apply IHv in Ev.
      destruct (skip_ws s3) as [|c s4] eqn:Es3; [discriminate|].
      apply skip_ws_cons in Es3.
      destruct (c =? 125); [intro H; injection H as _ <-; lia|].
      destruct (c =? 44); [|discriminate].
      destruct (members fuel s4) as [[fs' r]|] eqn:E; [|discriminate].
      intro H; injection H as _ <-. apply IHm in E. lia.
Qed.


(** One more level of a parser agrees for two fuels as soon as the parsers
    it calls do, on the shorter texts it calls them on. *)
Lemma value_congr f g s :
  (forall s', (List.length s' < List.length s)%nat -> members f s' = members g s') ->
  (forall s', (List.length s' < List.length s)%nat -> elements f s' = elements g s') ->
  value (S f) s = value (S g) s.
Proof.
  intros Hm He. cbn [value].
  destruct (skip_ws s) as [|c s1] eqn:Es; [reflexivity|].
  apply skip_ws_cons in Es.
  rewrite (Hm s1 Es), (He s1 Es). reflexivity.
Qed.

Lemma elements_congr f g s :
  value f s = value g s ->
  (forall s', (List.length s' + 2 <= List.length s)%nat -> elements f s' = elements g s') ->
  elements (S f) s = elements (S g) s.
Proof.
  intros Hv He. cbn [elements]. rewrite Hv.
  destruct (value g s) as [[v s1]|] eqn:Ev; [|reflexivity].
  apply (proj1 (parsers_consume g)) in Ev.
  destruct (skip_ws s1) as [|c s2] eqn:Es; [reflexivity|].
  apply skip_ws_cons in Es.
  rewrite (He s2) by lia. reflexivity.
Qed.

Lemma members_congr f g s :
  (forall s', (List.length s' + 3 <= List.length s)%nat -> value f s' = value g s') ->
  (forall s', (List.length s' + 5 <= List.length s)%nat -> members f s' = members g s') ->
  members (S f) s = members (S g) s.
Proof.
  intros Hv Hm. cbn [members].
  destruct (skip_ws s) as [|q s0] eqn:Es; [reflexivity|].
  apply skip_ws_cons in Es.
  destruct (q =? 34); [|reflexivity].
  destruct (string_body s0) as [[key s1]|] eqn:Ek; [|reflexivity].
  apply (@string_body_length (List.length s0)) in Ek; [|lia].
  destruct (skip_ws s1) as [|colon s2] eqn:Es1; [reflexivity|].
  apply skip_ws_cons in Es1.
  destruct (colon =? 58); [|reflexivity].
  rewrite (Hv s2) by lia.
  destruct (value g s2) as [[v s3]|] eqn:Ev; [|reflexivity].
  apply (proj1 (parsers_consume g)) in Ev.
  destruct (skip_ws s3) as [|c s4] eqn:Es3; [reflexivity|].
  apply skip_ws_cons in Es3.
  rewrite (Hm s4) by lia. reflexivity.
Qed.

(** Past twice the length of the text, more fuel changes nothing. *)
Lemma fuel_stable fuel :
  (forall s, (2 * List.length s + 1 <= fuel)%nat -> value (S fuel) s = value fuel s)
  /\ (forall s, (2 * List.length s + 2 <= fuel)%nat -> elements (S fuel) s = elements fuel s)
  /\ (forall s, (2 * List.length s + 2 <= fuel)%nat -> members (S fuel) s = members fuel s).
Proof.
  induction fuel as [|fuel (IHv & IHe & IHm)].
  - repeat split; intros; lia.
  - split; [|split]; intros s Hs.
    + apply value_congr; intros s' Hs'; [apply IHm | apply IHe]; lia.
    + apply elements_congr; [apply IHv; lia|].
      intros s' Hs'. apply IHe; lia.
    + apply members_congr; intros s' Hs'; [apply IHv | apply IHm]; lia.
Qed.

(** [enough] is enough: [JSON.parse] is what the parser gives with any
    larger amount of fuel. *)
Lemma enough_is_enough s extra :
  value (enough s + extra) s = value (enough s) s.
Proof.
  induction extra as [|extra IH].
  - now rewrite Nat.add_0_r.
  - rewrite Nat.add_succ_r, <- IH.
    apply (proj1 (fuel_stable (enough s + extra))). unfold enough. lia.
Qed.

End JsonFuel.

(* ================================================================== *)
(** ** Header stripping *)
(* ================================================================== *)

(** C6. For each of the three data-URI headers [h] (png, jpeg, jpg) and every
    payload [p], [cleanBase64 (h ++ p)] is exactly [p]; a string that does
    not start with one of the headers comes back unchanged. *)
Theorem cleanBase64_strips_header :
  (forall h p, In h dataUriHeaders -> cleanBase64 (h ++ p) = p)
  /\ (forall s, (forall h p, In h dataUriHeaders -> s <> h ++ p) -> cleanBase64 s = s).
Proof.
  split.
  - intros h p Hin. unfold dataUriHeaders in Hin. simpl in Hin.
    destruct Hin as [<-|[<-|[<-|[]]]]; reflexivity.
  - intros s Hno. now apply strip_first_unchanged.
Qed.

Lemma cleanBase64_strips_header_witness :
  In (lit "data:image/jpeg;base64,") dataUriHeaders
  /\ cleanBase64 (lit "data:image/jpeg;base64," ++ lit "iVBORw0KGgo=") = lit "iVBORw0KGgo="
  /\ cleanBase64 (lit "iVBORw0KGgo=") = lit "iVBORw0KGgo=".
Proof.
  split; [right; left; reflexivity|]. split.
  - apply (proj1 cleanBase64_strips_header). right; left; reflexivity.
  - apply (proj2 cleanBase64_strips_header). intros h p Hin.
    simpl in Hin. destruct Hin as [<-|[<-|[<-|[]]]]; discriminate.
Defined.

(** What [exportCanvas] hands over for a canvas with pixels is the png header
    followed by the payload, and cleaning it gives the payload back. *)
Lemma export_roundtrip (payload : jsstring) :
  cleanBase64 (lit "data:image/png;base64," ++ payload) = payload.
Proof. reflexivity. Qed.

(* ================================================================== *)
(** ** The orchestrator, step by step *)
(* ================================================================== *)

Arguments lit : simpl never.
Arguments sketchRequest : simpl never.
Arguments textToImageRequest : simpl never.
Arguments blankRequest : simpl never.
Arguments authorRequest : simpl never.
Arguments Json.parse : simpl never.

Ltac async :=
  unfold outcome, requests, run, generateQuiz, prepareImage, prepareText,
    generateContent, bind, ret, throw, await in *.

Section OrchestratorFacts.

Variable ai : Request -> ServiceOutcome.
Variable first : bool.

Lemma buildResult_log word url t log :
  snd (buildResult word url t log) = log.
Proof.
  unfold buildResult, bind, await, ret.
  destruct (Json.parse (jsonText t)) as [td| |]; simpl; auto.
  destruct (getField td _) as [o| |]; simpl; auto.
  destruct (getField td _) as [bl| |]; simpl; auto.
Qed.

Lemma extractImage_log i log :
  snd (extractImage i log) = log.
Proof.
  unfold extractImage, ret, throw.
  destruct i as [dta|r]; [reflexivity|].
  destruct (candidates r) as [[|c cs]|]; try reflexivity.
  destruct (content c) as [ct|]; try reflexivity.
  destruct (parts ct); reflexivity.
Qed.

Lemma merge_log word ip tp log :
  snd (merge first word ip tp log) = log.
Proof.
  unfold merge, bind, await.
  destruct (Promise_all first ip tp) as [[i t]| |]; simpl; auto.
  pose proof (extractImage_log i log) as E.
  destruct (extractImage i log) as [[url| |] log']; simpl in E; subst; auto.
  destruct (truthy url); simpl; auto using buildResult_log.
Qed.

(** [generateQuiz] in one equation: validation, then the two promises, then
    the merge over the requests already sent. *)
Lemma generateQuiz_run word sentence drawing mode :
  run (generateQuiz ai first word sentence drawing mode) =
  if inputs_given mode drawing sentence
  then merge first word (imagePromise ai word sentence drawing mode)
         (promiseOf (ai (textRequest word sentence)))
         (issued word sentence drawing mode)
  else (Rejected (validation_error mode), []).
Proof.
  unfold imagePromise, issued, imageRequest, textRequest, inputs_given, validation_error.
  async. destruct mode; simpl.
  - destruct (truthy_opt drawing); simpl; [|reflexivity].
    destruct (truthy (trim sentence)); reflexivity.
  - destruct (truthy_opt drawing); simpl.
    + destruct (truthy (trim sentence)); reflexivity.
    + destruct (truthy (trim sentence)); reflexivity.
Qed.

Lemma inputs_given_false mode drawing sentence :
  inputs_given mode drawing sentence = false <-> inputs_missing mode drawing sentence.
Proof.
  unfold inputs_given, inputs_missing. destruct mode.
  - rewrite truthy_opt_false. split; [intro; left; auto|].
    intros [[_ H]|[H _]]; [auto | discriminate].
  - rewrite orb_false_iff, truthy_opt_false, trim_falsy.
    split; [intro; right; tauto|].
    intros [[H _]|[_ H]]; [discriminate | auto].
Qed.

End OrchestratorFacts.

Section MergeFacts.

Variable first : bool.

Lemma buildResult_fulfilled word url t log q :
  fst (buildResult word url t log) = Fulfilled q ->
  imageUrl q = url /\ targetWord q = word
  /\ exists textData,
       Json.parse (jsonText t) = Fulfilled textData
       /\ getField textData (lit "originalSentence") = Fulfilled (originalSentence q)
       /\ getField textData (lit "blankedSentence") = Fulfilled (blankedSentence q).
Proof.
  unfold buildResult, bind, await, ret.
  destruct (Json.parse (jsonText t)) as [td| |]; simpl; try discriminate.
  destruct (getField td (lit "originalSentence")) as [o| |] eqn:Eo; simpl; try discriminate.
  destruct (getField td (lit "blankedSentence")) as [bl| |] eqn:Eb; simpl; try discriminate.
  intro H. injection H as <-. simpl. repeat split. exists td. auto.
Qed.

(** A result comes out of the merge only when both promises were
    fulfilled and an image was found. *)
Lemma merge_fulfilled word ip tp log q :
  fst (merge first word ip tp log) = Fulfilled q ->
  exists i t url,
    ip = Fulfilled i /\ tp = Fulfilled t
    /\ fst (extractImage i log) = Fulfilled url /\ truthy url = true
    /\ fst (buildResult word url t log) = Fulfilled q.
Proof.
  unfold merge, bind, await.
  destruct ip as [i| |], tp as [t| |]; simpl; try discriminate.
  pose proof (extractImage_log i log) as E.
  destruct (extractImage i log) as [[url| |] log'] eqn:Ex; simpl in *; subst;
    try discriminate.
  destruct (truthy url) eqn:Et; simpl; [|discriminate].
  intro H. exists i, t, url. rewrite Ex. repeat split; auto.
Qed.



End MergeFacts.

Lemma promiseOf_Fulfilled o r : promiseOf o = Fulfilled r <-> o = Resolves r.
Proof. destruct o; simpl; split; congruence. Qed.

Lemma promiseOf_Rejected o e :
  promiseOf o = Rejected e <-> exists reason, o = RejectsWith reason /\ e = ServiceRejection reason.
Proof.
  destruct o; simpl; split; try congruence.
  - intros (reason & H & _); discriminate.
  - intro H; injection H as <-. eauto.
  - intros (reason' & H & ->). congruence.
  - intros (reason & H & _); discriminate.
Qed.


Lemma asGenerated_Fulfilled p i :
  asGenerated p = Fulfilled i <-> exists r, p = Fulfilled r /\ i = Generated r.
Proof.
  destruct p; simpl; split; try congruence.
  - intro H; injection H as <-. eauto.
  - intros (r & H & ->). congruence.
  - intros (r & H & _); discriminate.
  - intros (r & H & _); discriminate.
Qed.

Lemma asGenerated_Rejected p e : asGenerated p = Rejected e <-> p = Rejected e.
Proof. destruct p; simpl; split; congruence. Qed.


Lemma text_is_not_image_request word sentence :
  is_image_request (textRequest word sentence) = false.
Proof. unfold textRequest. destruct (truthy (trim sentence)); reflexivity. Qed.

Lemma image_request_is_image_request word sentence drawing :
  is_image_request (imageRequest word sentence drawing) = true.
Proof. unfold imageRequest. destruct (truthy_opt drawing); reflexivity. Qed.

(** Where a rejection of the merge can come from. *)
Lemma getField_error v k e : getField v k = Rejected e -> e = JsTypeError.
Proof.
  destruct v; simpl; try congruence.
  destruct (Json.lookup k fields); congruence.
Qed.

Lemma parse_error s e : Json.parse s = Rejected e -> e = JsSyntaxError.
Proof.
  unfold Json.parse.
  destruct (Json.value _ _) as [[v rest]|]; [destruct (Json.skip_ws rest)|]; congruence.
Qed.

Lemma extractImage_error i log e :
  fst (extractImage i log) = Rejected e -> e = JsTypeError.
Proof.
  unfold extractImage, ret, throw.
  destruct i as [dta|r]; simpl; [congruence|].
  destruct (candidates r) as [[|c cs]|]; simpl; try congruence.
  destruct (content c) as [ct|]; simpl; try congruence.
  destruct (parts ct); simpl; congruence.
Qed.

Lemma buildResult_error word url t log e :
  fst (buildResult word url t log) = Rejected e ->
  e = JsTypeError \/ e = JsSyntaxError.
Proof.
  unfold buildResult, bind, await, ret.
  destruct (Json.parse (jsonText t)) as [td|ep|] eqn:Ep; simpl; try discriminate.
  - destruct (getField td (lit "originalSentence")) as [o|eo|] eqn:Eo; simpl;
      try discriminate.
    + destruct (getField td (lit "blankedSentence")) as [bl|eb|] eqn:Eb; simpl;
        try discriminate.
      intro H; injection H as <-. left. eapply getField_error; eauto.
    + intro H; injection H as <-. left. eapply getField_error; eauto.
  - intro H; injection H as <-. right. eapply parse_error; eauto.
Qed.

Lemma merge_error first word ip tp log e :
  fst (merge first word ip tp log) = Rejected e ->
  ip = Rejected e \/ tp = Rejected e
  \/ (e = JsTypeError \/ e = JsSyntaxError \/ e = ErrImageFailed).
Proof.
  unfold merge, bind, await.
  destruct ip as [i|ei|], tp as [t|et|]; simpl; try discriminate;
    try (intro H; injection H as <-; auto; fail);
    try (destruct first; intro H; injection H as <-; auto; fail).
  pose proof (extractImage_log i log) as El.
  destruct (extractImage i log) as [[url| |] log'] eqn:Ex; simpl in *; subst;
    try discriminate.
  - destruct (truthy url); simpl.
    + intro H. apply buildResult_error in H. tauto.
    + intro H; injection H as <-. tauto.
  - intro H; injection H as <-.
    assert (e0 = JsTypeError) by (eapply extractImage_error; rewrite Ex; reflexivity).
    tauto.
Qed.

(* ================================================================== *)
(** ** The orchestrator: the claims *)
(* ================================================================== *)

(** C1. In submit mode, whatever the word, the sentence and the service, no
    request goes to the image-generation model, and a returned [QuizResult]
    has [imageUrl] equal to the supplied drawing and [targetWord] equal to
    the supplied word. *)
Theorem submit_uses_drawing_verbatim
    (ai : Request -> ServiceOutcome) (first : bool)
    (word sentence drawing : jsstring) :
  Forall (fun req => is_image_request req = false)
    (requests (generateQuiz ai first word sentence (Some drawing) Submit))
  /\ forall q,
       outcome (generateQuiz ai first word sentence (Some drawing) Submit) = Fulfilled q ->
       imageUrl q = drawing /\ targetWord q = word.
Proof.
  unfold requests, outcome. rewrite generateQuiz_run.
  destruct (inputs_given Submit (Some drawing) sentence) eqn:Eg.
  - rewrite merge_log. split.
    + simpl. constructor; [apply text_is_not_image_request | constructor].
    + intros q H. apply merge_fulfilled in H.
      destruct H as (i & t & url & Hi & _ & Hx & _ & Hb).
      simpl in Hi. injection Hi as <-. simpl in Hx. injection Hx as <-.
      apply buildResult_fulfilled in Hb. tauto.
  - simpl. split; [constructor | discriminate].
Qed.

Lemma submit_uses_drawing_verbatim_witness :
  exists q,
    outcome (generateQuiz Sample.goodService true Sample.word Sample.sentence
               (Some Sample.drawing) Submit) = Fulfilled q
    /\ imageUrl q = Sample.drawing /\ targetWord q = Sample.word.
Proof.
  eexists. split; [vm_compute; reflexivity|].
  apply (proj2 (submit_uses_drawing_verbatim Sample.goodService true
                  Sample.word Sample.sentence Sample.drawing)).
  vm_compute; reflexivity.
Defined.

(** C2. A call ends in a validation error exactly when the inputs its mode
    requires are missing (submit: the drawing is null or empty; generate: the
    drawing is null or empty and the sentence is blank). In that case no
    request was issued; in every other case requests were issued. *)
Theorem validation_iff_inputs_missing
    (ai : Request -> ServiceOutcome) (first : bool)
    (word sentence : jsstring) (drawing : option jsstring) (mode : Mode) :
  ((exists e, outcome (generateQuiz ai first word sentence drawing mode) = Rejected e
              /\ is_validation_error e = true)
   <-> inputs_missing mode drawing sentence)
  /\ (inputs_missing mode drawing sentence ->
      outcome (generateQuiz ai first word sentence drawing mode)
        = Rejected (validation_error mode)
      /\ requests (generateQuiz ai first word sentence drawing mode) = [])
  /\ (~ inputs_missing mode drawing sentence ->
      requests (generateQuiz ai first word sentence drawing mode)
        = issued word sentence drawing mode
      /\ issued word sentence drawing mode <> []).
Proof.
  unfold outcome, requests. rewrite generateQuiz_run.
  rewrite <- inputs_given_false.
  destruct (inputs_given mode drawing sentence) eqn:Eg.
  - rewrite merge_log. repeat split; try discriminate.
    + intros (e & He & Hv). exfalso.
      apply merge_error in He. destruct He as [Hi|[Ht|Hm]].
      * destruct mode; simpl in Hi; [discriminate|].
        apply asGenerated_Rejected, promiseOf_Rejected in Hi.
        destruct Hi as (r & _ & ->). discriminate.
      * apply promiseOf_Rejected in Ht. destruct Ht as (r & _ & ->). discriminate.
      * destruct Hm as [->|[->| ->]]; discriminate.
    + destruct mode; discriminate.
  - simpl. repeat split; try discriminate; try tauto.
    intros _. exists (validation_error mode). split; [reflexivity | now destruct mode].
Qed.

Lemma validation_iff_inputs_missing_witness :
  inputs_missing Generate None (lit "  ")
  /\ (exists e, outcome (generateQuiz Sample.goodService true (lit "launch") (lit "  ")
                           None Generate) = Rejected e
                /\ is_validation_error e = true)
  /\ outcome (generateQuiz Sample.goodService true (lit "launch") (lit "  ") None Generate)
       = Rejected ErrDrawingOrSentenceRequired
  /\ requests (generateQuiz Sample.goodService true (lit "launch") (lit "  ") None Generate)
       = []
  /\ ~ inputs_missing Submit (Some Sample.drawing) Sample.sentence
  /\ requests (generateQuiz Sample.goodService true Sample.word Sample.sentence
                 (Some Sample.drawing) Submit)
       = [textRequest Sample.word Sample.sentence].
Proof.
  assert (H : inputs_missing Generate None (lit "  ")).
  { right. split; [reflexivity|]. split; [left; reflexivity|].
    repeat constructor. }
  assert (N : ~ inputs_missing Submit (Some Sample.drawing) Sample.sentence).
  { intro M. apply inputs_given_false in M. discriminate. }
  split; [exact H|]. split; [|split; [|split; [|split; [exact N|]]]].
  - exact (proj2 (proj1 (validation_iff_inputs_missing Sample.goodService true
                           (lit "launch") (lit "  ") None Generate)) H).
  - exact (proj1 (proj1 (proj2 (validation_iff_inputs_missing Sample.goodService true
                                  (lit "launch") (lit "  ") None Generate)) H)).
  - exact (proj2 (proj1 (proj2 (validation_iff_inputs_missing Sample.goodService true
                                  (lit "launch") (lit "  ") None Generate)) H)).
  - exact (proj1 (proj2 (proj2 (validation_iff_inputs_missing Sample.goodService true
                                  Sample.word Sample.sentence (Some Sample.drawing)
                                  Submit)) N)).
Defined.

Lemma getField_memberOf v k x : getField v k = Fulfilled x -> x = memberOf v k.
Proof.
  destruct v; simpl; try congruence.
  destruct (Json.lookup k fields); congruence.
Qed.

(** C3, as the code has it. The two sentence fields of a returned
    [QuizResult] are the members [originalSentence] and [blankedSentence] of
    the JSON value parsed from the text response (from an empty object when
    the response has no text), and [undefined] where that value has no such
    member. *)
Theorem quiz_sentences_are_parsed_members
    (ai : Request -> ServiceOutcome) (first : bool)
    (word sentence : jsstring) (drawing : option jsstring) (mode : Mode)
    (q : QuizResult) :
  outcome (generateQuiz ai first word sentence drawing mode) = Fulfilled q ->
  exists textResponse textData,
    ai (textRequest word sentence) = Resolves textResponse
    /\ Json.parse (jsonText textResponse) = Fulfilled textData
    /\ originalSentence q = memberOf textData (lit "originalSentence")
    /\ blankedSentence q = memberOf textData (lit "blankedSentence").
Proof.
  unfold outcome. rewrite generateQuiz_run.
  destruct (inputs_given mode drawing sentence); [|discriminate].
  intro H. apply merge_fulfilled in H.
  destruct H as (i & t & url & _ & Ht & _ & _ & Hb).
  apply promiseOf_Fulfilled in Ht.
  apply buildResult_fulfilled in Hb.
  destruct Hb as (_ & _ & td & Hp & Ho & Hbl).
  exists t, td. repeat split; auto using getField_memberOf.
Qed.

Lemma quiz_sentences_are_parsed_members_witness :
  exists q textResponse textData,
    outcome (generateQuiz Sample.goodService true Sample.word Sample.sentence
               (Some Sample.drawing) Submit) = Fulfilled q
    /\ Sample.goodService (textRequest Sample.word Sample.sentence) = Resolves textResponse
    /\ Json.parse (jsonText textResponse) = Fulfilled textData
    /\ originalSentence q = memberOf textData (lit "originalSentence")
    /\ blankedSentence q = memberOf textData (lit "blankedSentence")
    /\ nonempty_string (originalSentence q) = true
    /\ nonempty_string (blankedSentence q) = true.
Proof.
  eexists.
  destruct (quiz_sentences_are_parsed_members Sample.goodService true Sample.word
              Sample.sentence (Some Sample.drawing) Submit
              (q := {| imageUrl := Sample.drawing;
                       originalSentence := JSString Sample.sentence;
                       blankedSentence := JSString (lit "She worked hard to ______ the design.");
                       targetWord := Sample.word |}) eq_refl)
    as (t & td & H1 & H2 & H3 & H4).
  exists t, td. repeat split; assumption || reflexivity.
Defined.

(** C3, as stated, fails: with a text response that carries no text the
    call returns a [QuizResult] whose two sentence fields are [undefined]. *)
Lemma quiz_sentences_can_be_undefined :
  exists q,
    outcome (generateQuiz Sample.silentService true Sample.word Sample.sentence
               (Some Sample.drawing) Submit) = Fulfilled q
    /\ originalSentence q = JSUndefined
    /\ blankedSentence q = JSUndefined
    /\ nonempty_string (originalSentence q) = false
    /\ nonempty_string (blankedSentence q) = false.
Proof. eexists. repeat split; vm_compute; reflexivity. Qed.





(** The scan stops at the first part with inline data. *)
Lemma scanParts_first pre part blob post :
  Forall no_inline pre -> inlineData part = Some blob ->
  scanParts (pre ++ part :: post)
    = lit "data:image/png;base64," ++ template_of (blobData blob).
Proof.
  intros Hpre Hpart. induction Hpre as [|p pre Hp _ IH]; simpl.
  - now rewrite Hpart.
  - unfold no_inline in Hp. now rewrite Hp.
Qed.

Lemma scanParts_none ps : Forall no_inline ps -> scanParts ps = [].
Proof.
  induction 1 as [|p ps Hp _ IH]; simpl; [reflexivity|].
  unfold no_inline in Hp. now rewrite Hp.
Qed.

Lemma extractImage_scanned response ps log :
  scannedParts response = Some ps ->
  extractImage (Generated response) log = (Fulfilled (scanParts ps), log).
Proof.
  unfold scannedParts, extractImage, ret.
  destruct (candidates response) as [[|c cs]|]; try discriminate.
  - destruct (content c) as [ct|]; try discriminate.
    intro H; injection H as <-. now destruct (parts ct).
  - intro H; injection H as <-. reflexivity.
Qed.

Lemma extractImage_broken response log :
  scannedParts response = None ->
  extractImage (Generated response) log = (Rejected JsTypeError, log).
Proof.
  unfold scannedParts, extractImage, throw.
  destruct (candidates response) as [[|c cs]|]; try discriminate; [reflexivity|].
  destruct (content c) as [ct|]; [discriminate | reflexivity].
Qed.

(** Generate mode once both requests are answered and the scan has its
    parts: the image-failure error when the scan finds nothing, the result
    built around what it found otherwise. *)
Lemma generate_outcome_scanned
    (ai : Request -> ServiceOutcome) (first : bool)
    (word sentence : jsstring) (drawing : option jsstring)
    (imageResponse textResponse : GenerateContentResponse) (ps : list Part) :
  inputs_given Generate drawing sentence = true ->
  ai (imageRequest word sentence drawing) = Resolves imageResponse ->
  ai (textRequest word sentence) = Resolves textResponse ->
  scannedParts imageResponse = Some ps ->
  outcome (generateQuiz ai first word sentence drawing Generate)
  = if truthy (scanParts ps)
    then fst (buildResult word (scanParts ps) textResponse
                (issued word sentence drawing Generate))
    else Rejected ErrImageFailed.
Proof.
  intros Hg Hi Ht Hps. unfold outcome. rewrite generateQuiz_run, Hg.
  unfold imagePromise. rewrite Hi, Ht. simpl promiseOf. simpl asGenerated.
  unfold merge, bind, await. simpl Promise_all. cbv iota beta.
  rewrite (extractImage_scanned _ _ Hps).
  now destruct (truthy (scanParts ps)).
Qed.

(** C5, as the code has it. In generate mode, when both requests are
    answered and reading [candidates[0].content] does not throw, the merge
    scans the parts of the first candidate only (no parts when [candidates]
    or [parts] is missing): if one of them carries inline data, a returned
    result has as [imageUrl] the png data-URI of the first such part (parts
    before it are skipped, parts after it ignored) and the call does not
    fail with the image-failure error; if none of them carries inline data,
    the call fails with the image-failure error. *)
Theorem generate_takes_first_inline_image
    (ai : Request -> ServiceOutcome) (first : bool)
    (word sentence : jsstring) (drawing : option jsstring)
    (imageResponse textResponse : GenerateContentResponse) (ps : list Part) :
  inputs_given Generate drawing sentence = true ->
  ai (imageRequest word sentence drawing) = Resolves imageResponse ->
  ai (textRequest word sentence) = Resolves textResponse ->
  scannedParts imageResponse = Some ps ->
  (forall pre part blob post,
      ps = pre ++ part :: post -> Forall no_inline pre -> inlineData part = Some blob ->
      outcome (generateQuiz ai first word sentence drawing Generate)
        = fst (buildResult word
                 (lit "data:image/png;base64," ++ template_of (blobData blob))
                 textResponse (issued word sentence drawing Generate))
      /\ outcome (generateQuiz ai first word sentence drawing Generate)
           <> Rejected ErrImageFailed
      /\ forall q,
           outcome (generateQuiz ai first word sentence drawing Generate) = Fulfilled q ->
           imageUrl q = lit "data:image/png;base64," ++ template_of (blobData blob))
  /\ (Forall no_inline ps ->
      outcome (generateQuiz ai first word sentence drawing Generate)
        = Rejected ErrImageFailed).
Proof.
  intros Hg Hi Ht Hps.
  rewrite (@generate_outcome_scanned ai first word sentence drawing _ _ _ Hg Hi Ht Hps).
  split.
  - intros pre part blob post -> Hpre Hpart.
    rewrite (scanParts_first _ _ Hpre Hpart).
    change (truthy (lit "data:image/png;base64," ++ template_of (blobData blob)))
      with true.
    cbv iota. split; [reflexivity|]. split.
    + intro H. apply buildResult_error in H. destruct H; discriminate.
    + intros q H. now apply buildResult_fulfilled in H.
  - intro Hnone. rewrite (scanParts_none Hnone). reflexivity.
Qed.

Lemma generate_takes_first_inline_image_witness :
  inputs_given Generate None Sample.sentence = true
  /\ scannedParts (Sample.withParts
                    [Sample.captionPart; Sample.picturePart (lit "AAAA");
                     Sample.picturePart (lit "BBBB")])
       = Some ([Sample.captionPart] ++ Sample.picturePart (lit "AAAA")
                 :: [Sample.picturePart (lit "BBBB")])
  /\ Forall no_inline [Sample.captionPart]
  /\ (exists q,
        outcome (generateQuiz Sample.goodService true Sample.word Sample.sentence
                   None Generate) = Fulfilled q
        /\ imageUrl q = lit "data:image/png;base64,AAAA")
  /\ outcome (generateQuiz Sample.captionOnlyService true Sample.word Sample.sentence
                None Generate) = Rejected ErrImageFailed.
Proof.
  assert (Hpre : Forall no_inline [Sample.captionPart]) by (repeat constructor).
  split; [reflexivity|]. split; [reflexivity|]. split; [exact Hpre|]. split.
  - eexists. split; [vm_compute; reflexivity|].
    refine (proj2 (proj2 (proj1
      (@generate_takes_first_inline_image Sample.goodService true Sample.word
         Sample.sentence None _ _ _ eq_refl eq_refl eq_refl eq_refl)
      [Sample.captionPart] (Sample.picturePart (lit "AAAA"))
      {| blobMimeType := Some (lit "image/png"); blobData := Some (lit "AAAA") |}
      [Sample.picturePart (lit "BBBB")] eq_refl Hpre eq_refl)) _ _).
    vm_compute; reflexivity.
  - exact (proj2
      (@generate_takes_first_inline_image Sample.captionOnlyService true Sample.word
         Sample.sentence None _ _ [Sample.captionPart] eq_refl eq_refl eq_refl eq_refl)
      Hpre).
Defined.

(** C5, as stated, fails: an image answer whose second candidate holds the
    only part with inline data ends in the image-failure error, as the scan
    reads the first candidate alone. *)
Lemma later_candidate_image_is_ignored :
  Sample.secondCandidateService (imageRequest Sample.word Sample.sentence None)
    = Resolves Sample.twoCandidates
  /\ candidates Sample.twoCandidates
     = Some [ {| content := Some {| parts := Some [Sample.captionPart] |} |};
              {| content := Some {| parts := Some [Sample.picturePart (lit "AAAA")] |} |} ]
  /\ inlineData (Sample.picturePart (lit "AAAA"))
     = Some {| blobMimeType := Some (lit "image/png"); blobData := Some (lit "AAAA") |}
  /\ outcome (generateQuiz Sample.secondCandidateService true Sample.word Sample.sentence
                None Generate) = Rejected ErrImageFailed.
Proof. repeat split; vm_compute; reflexivity. Qed.

(** The shapes the guard of line 124 covers, a response without
    [candidates] and a first candidate whose content has no [parts], end in
    the image-failure error. *)
Lemma guarded_shapes_fail_descriptively
    (ai : Request -> ServiceOutcome) (first : bool)
    (word sentence : jsstring) (drawing : option jsstring)
    (imageResponse textResponse : GenerateContentResponse) :
  inputs_given Generate drawing sentence = true ->
  ai (imageRequest word sentence drawing) = Resolves imageResponse ->
  ai (textRequest word sentence) = Resolves textResponse ->
  candidates imageResponse = None
  \/ (exists c cs, candidates imageResponse = Some (c :: cs)
                   /\ content c = Some {| parts := None |}) ->
  outcome (generateQuiz ai first word sentence drawing Generate) = Rejected ErrImageFailed.
Proof.
  intros Hg Hi Ht Hshape.
  rewrite (@generate_outcome_scanned ai first word sentence drawing
             imageResponse textResponse [] Hg Hi Ht); [reflexivity|].
  unfold scannedParts.
  destruct Hshape as [-> | (c & cs & -> & ->)]; reflexivity.
Qed.

(** The shapes it does not cover, an empty candidate list and a first
    candidate without content, end in a [TypeError]. *)
Lemma broken_path_raises_type_error
    (ai : Request -> ServiceOutcome) (first : bool)
    (word sentence : jsstring) (drawing : option jsstring)
    (imageResponse textResponse : GenerateContentResponse) :
  inputs_given Generate drawing sentence = true ->
  ai (imageRequest word sentence drawing) = Resolves imageResponse ->
  ai (textRequest word sentence) = Resolves textResponse ->
  scannedParts imageResponse = None ->
  outcome (generateQuiz ai first word sentence drawing Generate) = Rejected JsTypeError.
Proof.
  intros Hg Hi Ht Hps. unfold outcome. rewrite generateQuiz_run, Hg.
  unfold imagePromise. rewrite Hi, Ht. simpl promiseOf. simpl asGenerated.
  unfold merge, bind, await. simpl Promise_all. cbv iota beta.
  now rewrite (extractImage_broken _ _ Hps).
Qed.

(** C10. The scan is not total over the response shapes: for an image
    response whose candidate list is empty, and for one whose first
    candidate has no content, [generateQuiz] ends in a [TypeError] and not in
    the image-failure error. *)
Theorem empty_candidates_raise_type_error :
  outcome (generateQuiz Sample.noCandidateService true Sample.word Sample.sentence
             None Generate) = Rejected JsTypeError
  /\ outcome (generateQuiz Sample.noContentService true Sample.word Sample.sentence
                None Generate) = Rejected JsTypeError
  /\ Rejected (A := QuizResult) JsTypeError <> Rejected ErrImageFailed.
Proof. repeat split; try (vm_compute; reflexivity). discriminate. Qed.

(* ================================================================== *)
(** ** The drawing surface *)
(* ================================================================== *)

Section SurfaceFacts.

Import DrawingCanvas.

Variable toDataURL : Canvas -> jsstring.

Lemma play_app evs1 evs2 s :
  play toDataURL (evs1 ++ evs2) s =
  let (s1, calls1) := play toDataURL evs1 s in
  let (s2, calls2) := play toDataURL evs2 s1 in
  (s2, calls1 ++ calls2).
Proof.
  revert s. induction evs1 as [|ev evs1 IH]; intro s; simpl.
  - now destruct (play toDataURL evs2 s).
  - destruct (handle toDataURL ev s) as [s1 c1]. rewrite IH.
    destruct (play toDataURL evs1 s1) as [s2 c2].
    destruct (play toDataURL evs2 s2) as [s3 c3].
    now rewrite app_assoc.
Qed.

(** Moving while the button is down paints and calls nothing back. *)
Lemma play_moves moves s :
  ready s -> isDrawing s = true ->
  exists s',
    play toDataURL (List.map Move moves) s = (s', [])
    /\ ready s' /\ isDrawing s' = true /\ hasDrawn s' = hasDrawn s.
Proof.
  revert s. induction moves as [|e moves IH]; intros s Hr Hd; simpl.
  - exists s. auto.
  - unfold draw. rewrite Hd. simpl.
    destruct Hr as (c & Hc & H2d). rewrite Hc, H2d. simpl.
    destruct (IH {| isDrawing := true; hasDrawn := hasDrawn s;
                    canvasRef := Some (paint c [LineTo (getCoordinates e); Stroke]) |})
      as (s' & Hp & Hr' & Hd' & Hh').
    + exists (paint c [LineTo (getCoordinates e); Stroke]). split; auto.
    + reflexivity.
    + rewrite Hp. exists s'. auto.
Qed.

(** While the button is down, moves paint their segments and nothing else
    changes. *)
Lemma play_moves_paint moves : forall s c,
  canvasRef s = Some c -> has2d c = true -> isDrawing s = true ->
  exists c',
    play toDataURL (List.map Move moves) s
      = ({| isDrawing := true; hasDrawn := hasDrawn s; canvasRef := Some c' |}, [])
    /\ painted c' = painted c ++ segments moves
    /\ width c' = width c /\ height c' = height c /\ has2d c' = true.
Proof.
  induction moves as [|e moves IH]; intros s c Hc H2d Hd; simpl.
  - exists c. rewrite app_nil_r. repeat split; auto.
    destruct s; simpl in *; subst; reflexivity.
  - unfold draw. rewrite Hd, Hc, H2d. simpl.
    destruct (IH {| isDrawing := true; hasDrawn := hasDrawn s;
                    canvasRef := Some (paint c [LineTo (getCoordinates e); Stroke]) |}
                 (paint c [LineTo (getCoordinates e); Stroke]) eq_refl H2d eq_refl)
      as (c' & Hp & Hpaint & Hw & Hh & H2).
    simpl in Hp. rewrite Hp. exists c'. repeat split; auto.
    rewrite Hpaint. simpl. now rewrite <- app_assoc.
Qed.

End SurfaceFacts.

(** C8. The callback contract of the drawing surface. (1) While nothing has
    been drawn, a clear leaves the has-drawn flag false and every call it
    makes passes [null]. (2) On a mounted surface, a press, any number of
    moves and a release make exactly one call, and what it passes is the
    encoded image of the canvas as it is at the release: everything painted
    before, then the start of the path and one segment per move. (3) A
    release while no stroke is in progress, as at the start or right after a
    release, makes no call. (4) On a mounted surface a clear resets the flag
    and makes the one call [onImageReady(null)], also after drawing. *)
Theorem drawing_surface_callback_contract
    (toDataURL : DrawingCanvas.Canvas -> jsstring) :
  (forall s,
      DrawingCanvas.hasDrawn s = false ->
      DrawingCanvas.hasDrawn (fst (DrawingCanvas.clearCanvas s)) = false
      /\ Forall (fun call => call = None) (snd (DrawingCanvas.clearCanvas s)))
  /\ (forall s c press moves,
        DrawingCanvas.canvasRef s = Some c -> DrawingCanvas.has2d c = true ->
        exists c',
          DrawingCanvas.play toDataURL
            (DrawingCanvas.Press press :: List.map DrawingCanvas.Move moves
               ++ [DrawingCanvas.Release]) s
          = ({| DrawingCanvas.isDrawing := false; DrawingCanvas.hasDrawn := true;
                DrawingCanvas.canvasRef := Some c' |},
             [Some (toDataURL c')])
          /\ DrawingCanvas.painted c'
             = DrawingCanvas.painted c
                 ++ DrawingCanvas.BeginPath
                 :: DrawingCanvas.MoveTo (DrawingCanvas.getCoordinates press)
                 :: segments moves
          /\ DrawingCanvas.width c' = DrawingCanvas.width c
          /\ DrawingCanvas.height c' = DrawingCanvas.height c
          /\ DrawingCanvas.has2d c' = true)
  /\ (forall s,
        DrawingCanvas.isDrawing s = false ->
        DrawingCanvas.stopDrawing toDataURL s = (s, []))
  /\ (forall canvas offsetWidth,
        snd (DrawingCanvas.stopDrawing toDataURL (DrawingCanvas.mount canvas offsetWidth))
        = [])
  /\ (forall s,
        snd (DrawingCanvas.stopDrawing toDataURL
               (fst (DrawingCanvas.stopDrawing toDataURL s))) = [])
  /\ (forall s,
        DrawingCanvas.ready s ->
        DrawingCanvas.hasDrawn (fst (DrawingCanvas.clearCanvas s)) = false
        /\ snd (DrawingCanvas.clearCanvas s) = [None]).
Proof.
  split; [|split; [|split; [|split; [|split]]]].
  - intros s Hh. unfold DrawingCanvas.clearCanvas.
    destruct (DrawingCanvas.canvasRef s) as [c|]; simpl; auto.
    destruct (DrawingCanvas.has2d c); simpl; auto.
  - intros s c press moves Hc H2d.
    cbn [DrawingCanvas.play DrawingCanvas.handle].
    unfold DrawingCanvas.startDrawing. rewrite Hc, H2d. simpl negb. cbv iota.
    rewrite play_app.
    set (c1 := DrawingCanvas.paint c _).
    destruct (@play_moves_paint toDataURL moves
                {| DrawingCanvas.isDrawing := true; DrawingCanvas.hasDrawn := true;
                   DrawingCanvas.canvasRef := Some c1 |} c1 eq_refl H2d eq_refl)
      as (c' & Hp & Hpaint & Hw & Hh & H2).
    rewrite Hp. cbn [DrawingCanvas.play DrawingCanvas.handle].
    unfold DrawingCanvas.stopDrawing, DrawingCanvas.exportCanvas. simpl.
    exists c'. repeat split; auto.
    rewrite Hpaint. unfold c1. simpl. now rewrite <- app_assoc.
  - intros s Hd. unfold DrawingCanvas.stopDrawing. now rewrite Hd.
  - intros canvas w. reflexivity.
  - intro s. unfold DrawingCanvas.stopDrawing.
    destruct (DrawingCanvas.isDrawing s) eqn:Hd; simpl; [reflexivity|].
    now rewrite Hd.
  - intros s (c & Hc & H2d). unfold DrawingCanvas.clearCanvas.
    rewrite Hc, H2d. simpl. auto.
Qed.

Lemma drawing_surface_callback_contract_witness :
  DrawingCanvas.ready SampleUi.mounted
  /\ DrawingCanvas.hasDrawn SampleUi.mounted = false
  /\ DrawingCanvas.isDrawing SampleUi.mounted = false
  /\ DrawingCanvas.ready SampleUi.drawnOn
  /\ DrawingCanvas.hasDrawn SampleUi.drawnOn = true
  /\ (DrawingCanvas.hasDrawn (fst (DrawingCanvas.clearCanvas SampleUi.mounted)) = false
      /\ Forall (fun call => call = None) (snd (DrawingCanvas.clearCanvas SampleUi.mounted)))
  /\ (exists c c',
        DrawingCanvas.canvasRef SampleUi.mounted = Some c
        /\ DrawingCanvas.has2d c = true
        /\ DrawingCanvas.play SampleUi.encode SampleUi.stroke SampleUi.mounted
           = ({| DrawingCanvas.isDrawing := false; DrawingCanvas.hasDrawn := true;
                 DrawingCanvas.canvasRef := Some c' |},
              [Some (SampleUi.encode c')])
        /\ SampleUi.encode c' = lit "data:image/png;base64,AAAAAAA"
        /\ DrawingCanvas.painted c'
           = DrawingCanvas.painted c
               ++ DrawingCanvas.BeginPath
               :: DrawingCanvas.MoveTo (DrawingCanvas.getCoordinates (SampleUi.at_ 10 70))
               :: segments [SampleUi.at_ 20 80; SampleUi.at_ 30 75])
  /\ DrawingCanvas.stopDrawing SampleUi.encode SampleUi.mounted = (SampleUi.mounted, [])
  /\ (DrawingCanvas.hasDrawn (fst (DrawingCanvas.clearCanvas SampleUi.drawnOn)) = false
      /\ snd (DrawingCanvas.clearCanvas SampleUi.drawnOn) = [None]).
Proof.
  assert (Hm : DrawingCanvas.ready SampleUi.mounted)
    by (eexists; split; reflexivity).
  assert (Hd : DrawingCanvas.ready SampleUi.drawnOn)
    by (eexists; split; reflexivity).
  split; [exact Hm|]. split; [reflexivity|]. split; [reflexivity|].
  split; [exact Hd|]. split; [reflexivity|].
  split; [|split; [|split]].
  - exact (proj1 (drawing_surface_callback_contract SampleUi.encode)
             SampleUi.mounted eq_refl).
  - eexists.
    destruct (proj1 (proj2 (drawing_surface_callback_contract SampleUi.encode))
                SampleUi.mounted _ (SampleUi.at_ 10 70)
                [SampleUi.at_ 20 80; SampleUi.at_ 30 75] eq_refl eq_refl)
      as (c' & Hplay & Hpaint & _).
    exists c'. split; [reflexivity|]. split; [reflexivity|].
    split; [exact Hplay|]. split; [|exact Hpaint].
    unfold SampleUi.encode. rewrite Hpaint. reflexivity.
  - exact (proj1 (proj2 (proj2 (drawing_surface_callback_contract SampleUi.encode)))
             SampleUi.mounted eq_refl).
  - exact (proj2 (proj2 (proj2 (proj2 (proj2
             (drawing_surface_callback_contract SampleUi.encode)))))
             SampleUi.drawnOn Hd).
Defined.

(* ================================================================== *)
(** ** The share card *)
(* ================================================================== *)

Section CardFacts.

Import App.

Variable measureText : jsstring -> float.

Lemma greedyFrom_nonempty line words : greedyFrom measureText line words <> [].
Proof.
  revert line. induction words as [|w words IH]; intro line; simpl;
    [discriminate | destruct (gt _ _); [discriminate | apply IH]].
Qed.

(** After the first word, the loop is the greedy wrap of the words left:
    the line in hand is its last line, the lines pushed are the others. *)
Lemma wrap_loop words : forall n line pushed,
  fold_left (wrapStep measureText) words (S n, line, pushed) =
  (S n + List.length words,
   last (greedyFrom measureText line words) [],
   pushed ++ removelast (greedyFrom measureText line words)).
Proof.
  induction words as [|w words IH]; intros n line pushed; simpl fold_left.
  - simpl. now rewrite Nat.add_0_r, app_nil_r.
  - change (0 <? S n)%nat with true. rewrite andb_true_r.
    cbn [greedyFrom].
    destruct (gt (measureText (line ++ w ++ lit " ")) textMaxWidth).
    + rewrite IH.
      pose proof (greedyFrom_nonempty (w ++ lit " ") words) as Hne.
      destruct (greedyFrom measureText (w ++ lit " ") words) as [|l ls] eqn:Eg;
        [congruence|].
      f_equal; [f_equal; simpl; lia|].
      rewrite <- app_assoc. reflexivity.
    + rewrite IH. f_equal. f_equal. simpl; lia.
Qed.

(** The loop of lines 118-133 computes the greedy wrap of the spec. *)
Lemma wrapText_greedy sentence :
  wrapText measureText sentence = greedyWrap measureText (split_on 32 sentence).
Proof.
  unfold wrapText, greedyWrap.
  destruct (split_on 32 sentence) as [|w words]; [reflexivity|].
  simpl fold_left. change (0 <? 0)%nat with false. rewrite andb_false_r.
  rewrite wrap_loop. simpl app at 1.
  symmetry. apply app_removelast_last. apply greedyFrom_nonempty.
Qed.

(** A wrapped text has at least one line. *)
Lemma wrapText_nonempty sentence : wrapText measureText sentence <> [].
Proof.
  rewrite wrapText_greedy. unfold greedyWrap.
  destruct (split_on 32 sentence); [discriminate | apply greedyFrom_nonempty].
Qed.

End CardFacts.

(** A square image of any side up to 4096 pixels is drawn 1200 high: its
    aspect ratio is exactly 1. *)
Lemma squares_scale_to_card_width (n : nat) :
  (1 <= n <= 4096)%nat -> App.scaledHeight (squareOf n) = 1200%float.
Proof.
  intro Hn.
  assert (H : forallb (fun k => PrimFloat.Leibniz.eqb (App.scaledHeight (squareOf k)) 1200)
                (seq 1 4096) = true) by (vm_compute; reflexivity).
  rewrite forallb_forall in H. apply FloatAxioms.Leibniz.eqb_spec, H, in_seq. lia.
Qed.

(** The integer part of a number that is not negative lies at most one
    below it. *)
Lemma truncate_floor (x : float) (v : Q) :
  App.exactValue x = Some v -> (0 <= v)%Q ->
  (0 <= App.truncate x)%Z
  /\ (inject_Z (App.truncate x) <= v)%Q /\ (v < inject_Z (App.truncate x) + 1)%Q.
Proof.
  unfold App.exactValue, App.truncate.
  destruct (Prim2SF x) as [s|s| |s m e]; try discriminate.
  - intro H; injection H as <-. intros _. split; [lia|].
    split; [apply Qle_refl | reflexivity].
  - destruct (0 <=? e)%Z eqn:Ee.
    + assert (Hk : (0 < Z.pos m * 2 ^ e)%Z).
      { apply Z.mul_pos_pos; [lia|]. apply Z.pow_pos_nonneg; lia. }
      set (k := (Z.pos m * 2 ^ e)%Z) in *. clearbody k.
      destruct s; intro H; injection H as <-; intro Hv.
      * exfalso. unfold Qle in Hv. cbn [Qnum Qden Qopp inject_Z] in Hv. lia.
      * split; [lia|]. split; [apply Qle_refl|].
        unfold Qlt, Qplus. cbn [Qnum Qden inject_Z]. lia.
    + set (d := App.scale e) in *. clearbody d.
      destruct s; intro H; injection H as <-; intro Hv.
      * exfalso. unfold Qle in Hv. cbn [Qnum Qden Qopp inject_Z] in Hv. lia.
      * pose proof (Z.div_mod (Z.pos m) (Z.pos d) ltac:(lia)) as Hdm.
        pose proof (Z.mod_pos_bound (Z.pos m) (Z.pos d) ltac:(lia)) as Hb.
        assert (Ht : (0 <= Z.pos m / Z.pos d)%Z) by (apply Z.div_pos; lia).
        split; [exact Ht|]. split.
        -- unfold Qle. cbn [Qnum Qden inject_Z]. lia.
        -- unfold Qlt, Qplus. cbn [Qnum Qden inject_Z]. nia.
Qed.

(** Below 2^31 a canvas size is the integer part of the number assigned. *)
Lemma canvasSize_truncates (default : Z) (x : float) (v : Q) :
  App.exactValue x = Some v -> (0 <= v)%Q -> (v < inject_Z 2147483648)%Q ->
  App.canvasSize default x = App.truncate x.
Proof.
  intros Hx H0 Hmax.
  destruct (truncate_floor _ Hx H0) as (Ht & Hle & _).
  assert (Hlt : (App.truncate x < 2147483648)%Z).
  { pose proof (Qle_lt_trans _ _ _ Hle Hmax) as H.
    unfold Qlt in H. cbn [Qnum Qden inject_Z] in H. lia. }
  unfold App.canvasSize, App.toUnsignedLong.
  rewrite Z.mod_small by lia.
  destruct (Z.leb_spec (App.truncate x) 2147483647); [reflexivity | lia].
Qed.

(** C9, as the code has it. For every decoded image and every blanked
    sentence, the number the code computes as the total height is the scaled
    image height plus the greedy-wrap line count times the line height plus
    twice the padding, in double arithmetic; the height of the card is what
    [canvas.height] keeps of that number. When the number is not negative
    and below 2^31 that is its integer part: the height is at most the
    number and less than one below it. The scaled image height is the card
    width times height over width when the image height is positive, and
    the card width itself otherwise. For a square image of side 1 to 4096
    and a sentence of three lines the height is exactly 1530, which is
    1200 + 3 x 70 + 2 x 60. *)
Theorem card_height_formula
    (measureText : jsstring -> float) (img : App.Image) (sentence : jsstring) :
  App.lines (App.composeCard measureText img sentence)
    = App.greedyWrap measureText (split_on 32 sentence)
  /\ App.totalHeight measureText img sentence
     = (App.scaledHeight img
        + (App.num_of_nat (List.length (App.greedyWrap measureText (split_on 32 sentence)))
           * App.lineHeight + App.padding * 2))%float
  /\ App.height (App.composeCard measureText img sentence)
     = App.canvasSize 150 (App.totalHeight measureText img sentence)
  /\ (forall v,
        App.exactValue (App.totalHeight measureText img sentence) = Some v ->
        (0 <= v)%Q -> (v < inject_Z 2147483648)%Q ->
        (inject_Z (App.height (App.composeCard measureText img sentence)) <= v)%Q
        /\ (v < inject_Z (App.height (App.composeCard measureText img sentence)) + 1)%Q)
  /\ (App.gt (App.num_of_N (App.imgHeight img)) 0 = true ->
      App.scaledHeight img
      = (App.cardWidth * (App.num_of_N (App.imgHeight img) / App.num_of_N (App.imgWidth img)))%float)
  /\ (App.gt (App.num_of_N (App.imgHeight img)) 0 = false ->
      App.scaledHeight img = App.cardWidth)
  /\ (forall n,
        (1 <= n <= 4096)%nat ->
        List.length (App.greedyWrap measureText (split_on 32 sentence)) = 3%nat ->
        App.height (App.composeCard measureText (squareOf n) sentence) = 1530%Z).
Proof.
  unfold App.composeCard; cbn [App.lines App.height].
  unfold App.totalHeight, App.textSectionHeight.
  rewrite wrapText_greedy.
  split; [reflexivity|]. split; [reflexivity|]. split; [reflexivity|].
  split; [|split; [|split]].
  - intros v Hx H0 Hmax.
    rewrite (canvasSize_truncates 150 _ Hx H0 Hmax).
    now destruct (truncate_floor _ Hx H0) as (_ & Hle & Hlt).
  - intro H. unfold App.scaledHeight, App.aspectRatio. now rewrite H.
  - intro H. unfold App.scaledHeight, App.aspectRatio. rewrite H. reflexivity.
  - intros n Hn H3. rewrite (squares_scale_to_card_width Hn), H3.
    vm_compute. reflexivity.
Qed.

Lemma card_height_formula_witness :
  List.length (App.greedyWrap SampleUi.measure (split_on 32 SampleUi.blanked)) = 3%nat
  /\ App.gt (App.num_of_N (App.imgHeight SampleUi.wide)) 0 = true
  /\ App.gt (App.num_of_N (App.imgHeight {| App.imgWidth := 0; App.imgHeight := 0 |})) 0
     = false
  /\ App.scaledHeight {| App.imgWidth := 0; App.imgHeight := 0 |} = App.cardWidth
  /\ App.scaledHeight SampleUi.wide
     = (App.cardWidth * (App.num_of_N (App.imgHeight SampleUi.wide)
                         / App.num_of_N (App.imgWidth SampleUi.wide)))%float
  /\ App.exactValue (App.totalHeight SampleUi.measure SampleUi.wide SampleUi.blanked)
     = Some ((6417629469002957 # 8796093022208)%Q)
  /\ (inject_Z (App.height (App.composeCard SampleUi.measure SampleUi.wide SampleUi.blanked))
      <= (6417629469002957 # 8796093022208)%Q)%Q
  /\ ((6417629469002957 # 8796093022208)%Q
      < inject_Z (App.height (App.composeCard SampleUi.measure SampleUi.wide
                                SampleUi.blanked)) + 1)%Q
  /\ App.height (App.composeCard SampleUi.measure SampleUi.wide SampleUi.blanked) = 729%Z
  /\ App.height (App.composeCard SampleUi.measure (squareOf 1024) SampleUi.blanked)
     = 1530%Z.
Proof.
  assert (H3 : List.length (App.greedyWrap SampleUi.measure (split_on 32 SampleUi.blanked))
               = 3%nat) by (vm_compute; reflexivity).
  assert (Hh : App.gt (App.num_of_N (App.imgHeight SampleUi.wide)) 0 = true)
    by (vm_compute; reflexivity).
  assert (Hz : App.gt (App.num_of_N (App.imgHeight {| App.imgWidth := 0; App.imgHeight := 0 |}))
                 0 = false) by (vm_compute; reflexivity).
  assert (Hx : App.exactValue (App.totalHeight SampleUi.measure SampleUi.wide SampleUi.blanked)
               = Some ((6417629469002957 # 8796093022208)%Q))
    by (vm_compute; reflexivity).
  pose proof (card_height_formula SampleUi.measure SampleUi.wide SampleUi.blanked)
    as (_ & _ & _ & Hfloor & Hpos & _ & _).
  pose proof (card_height_formula SampleUi.measure
                {| App.imgWidth := 0; App.imgHeight := 0 |} SampleUi.blanked)
    as (_ & _ & _ & _ & _ & Hzero & _).
  pose proof (card_height_formula SampleUi.measure SampleUi.square SampleUi.blanked)
    as (_ & _ & _ & _ & _ & _ & Hsq).
  destruct (Hfloor _ Hx) as [Hle Hlt]; [vm_compute; discriminate | vm_compute; reflexivity |].
  split; [exact H3|]. split; [exact Hh|]. split; [exact Hz|].
  split; [exact (Hzero Hz)|]. split; [exact (Hpos Hh)|]. split; [exact Hx|].
  split; [exact Hle|]. split; [exact Hlt|]. split; [vm_compute; reflexivity|].
  apply Hsq; [lia | exact H3].
Defined.

(** C9, as stated, fails: for an image 1000 wide and 333 high and a sentence
    of three lines the scaled image height plus 3 x 70 + 2 x 60 is 729.6,
    while the card is 729 high. *)
Lemma card_height_is_truncated :
  List.length (App.greedyWrap SampleUi.measure (split_on 32 SampleUi.blanked)) = 3%nat
  /\ App.height (App.composeCard SampleUi.measure SampleUi.wide SampleUi.blanked) = 729%Z
  /\ PrimFloat.ltb 729
       (App.scaledHeight SampleUi.wide + (3 * App.lineHeight + 2 * App.padding))%float
     = true
  /\ PrimFloat.ltb 729.5
       (App.scaledHeight SampleUi.wide + (3 * App.lineHeight + 2 * App.padding))%float
     = true.
Proof. repeat split; vm_compute; reflexivity. Qed.

(** The card path of [downloadImage] is taken exactly when the image
    decodes, the context is there, the blanked sentence is a string and the
    export succeeds; the card is then [composeCard] of the decoded image. *)
Lemma download_card_path loadImage has2d measureText toDataURL r card d :
  App.downloadImage loadImage has2d measureText toDataURL (Some r)
    = Some (App.CardPath card, d) ->
  exists img sentence url,
    loadImage (imageUrl r) = Some img /\ has2d = true
    /\ blankedSentence r = JSString sentence
    /\ card = App.composeCard measureText img sentence
    /\ toDataURL card = Some url
    /\ d = {| App.filename := App.cardFilename (targetWord r); App.href := url |}.
Proof.
  unfold App.downloadImage, App.tryCard.
  destruct (loadImage (imageUrl r)) as [img|]; [|discriminate].
  destruct has2d; simpl; [|discriminate].
  destruct (blankedSentence r) as [| | | |sentence| |]; try discriminate.
  destruct (toDataURL _) as [url|] eqn:Eu; [|discriminate].
  intro H. injection H as <- <-. exists img, sentence, url. auto 10.
Qed.

(** The name of the download on each path. *)
Lemma download_filename_by_path loadImage has2d measureText toDataURL r path d :
  App.downloadImage loadImage has2d measureText toDataURL (Some r) = Some (path, d) ->
  App.filename d =
  match path with
  | App.CardPath _ => App.cardFilename (targetWord r)
  | App.FallbackPath => App.fallbackFilename (targetWord r)
  end.
Proof.
  unfold App.downloadImage.
  destruct (App.tryCard _ _ _ _ r) as [[card d']|] eqn:Et.
  - intro H. injection H as <- <-. unfold App.tryCard in Et.
    destruct (loadImage (imageUrl r)) as [img|]; [|discriminate].
    destruct has2d; simpl in Et; [|discriminate].
    destruct (blankedSentence r) as [| | | |sentence| |]; try discriminate.
    destruct (toDataURL _) as [url|]; [|discriminate].
    injection Et as _ <-. reflexivity.
  - intro H. injection H as <- <-. reflexivity.
Qed.

(** A download always happens for a result. *)
Lemma download_total loadImage has2d measureText toDataURL r :
  exists path d,
    App.downloadImage loadImage has2d measureText toDataURL (Some r) = Some (path, d).
Proof.
  unfold App.downloadImage.
  destruct (App.tryCard _ _ _ _ r) as [[card d']|]; eauto.
Qed.

(** C7. On the fallback path the file name keeps the target word as it is:
    for the target word [ice cream] and an image that fails to decode the
    download is named [visual-vocab-ice cream.png], while the card path
    names it [visual-vocab-ice_cream.png]. *)
Theorem fallback_filename_keeps_whitespace :
  App.downloadImage SampleUi.breaks true SampleUi.measure SampleUi.render
    (Some (SampleUi.result (lit "ice cream")))
  = Some (App.FallbackPath,
          {| App.filename := lit "visual-vocab-ice cream.png";
             App.href := imageUrl (SampleUi.result (lit "ice cream")) |})
  /\ option_map (fun pd => App.filename (snd pd))
       (App.downloadImage SampleUi.decodes true SampleUi.measure SampleUi.render
          (Some (SampleUi.result (lit "ice cream"))))
     = Some (lit "visual-vocab-ice_cream.png")
  /\ lit "visual-vocab-ice cream.png" <> lit "visual-vocab-ice_cream.png".
Proof. repeat split; try (vm_compute; reflexivity). discriminate. Qed.

(** What the replacement leaves holds no white space. *)
Lemma replace_ws_runs_clean (in_run : bool) (s : jsstring) :
  forallb (fun c => negb (isWhiteSpace c)) (replace_ws_runs (lit "_") in_run s) = true.
Proof.
  revert in_run. induction s as [|c s IH]; intro in_run; simpl; [reflexivity|].
  destruct (isWhiteSpace c) eqn:E.
  - rewrite forallb_app, IH. now destruct in_run.
  - simpl. now rewrite E, IH.
Qed.

(** A word without white space is left as it is. *)
Lemma replace_ws_runs_id (r : jsstring) (in_run : bool) (s : jsstring) :
  forallb (fun c => negb (isWhiteSpace c)) s = true ->
  replace_ws_runs r in_run s = s.
Proof.
  revert in_run. induction s as [|c s IH]; intro in_run; simpl; [reflexivity|].
  destruct (isWhiteSpace c); simpl; [discriminate|].
  intro H. now rewrite IH.
Qed.

(** The two paths of [downloadImage] give the same name exactly for the
    target words without white space. *)
Lemma fallback_name_agrees_iff (targetWord : jsstring) :
  App.fallbackFilename targetWord = App.cardFilename targetWord
  <-> forallb (fun c => negb (isWhiteSpace c)) targetWord = true.
Proof.
  unfold App.fallbackFilename, App.cardFilename. split.
  - intro H. apply app_inv_head, app_inv_tail in H. rewrite H.
    apply replace_ws_runs_clean.
  - intro H. now rewrite replace_ws_runs_id.
Qed.

(** In submit mode with a drawing, a text answer that parses to anything but
    [null] gives a result. *)
Lemma submit_returns
    (ai : Request -> ServiceOutcome) (first : bool)
    (word sentence drawing : jsstring) (t : GenerateContentResponse) (textData : JSValue) :
  drawing <> [] ->
  ai (textRequest word sentence) = Resolves t ->
  Json.parse (jsonText t) = Fulfilled textData ->
  textData <> JSNull -> textData <> JSUndefined ->
  outcome (generateQuiz ai first word sentence (Some drawing) Submit)
  = Fulfilled {| imageUrl := drawing;
                 originalSentence := memberOf textData (lit "originalSentence");
                 blankedSentence := memberOf textData (lit "blankedSentence");
                 targetWord := word |}.
Proof.
  intros Hd Ht Hp Hn Hu. unfold outcome. rewrite generateQuiz_run.
  destruct drawing as [|c drawing]; [congruence|]. simpl inputs_given. cbv iota.
  simpl imagePromise. rewrite Ht. simpl promiseOf.
  unfold merge, bind, await, extractImage, ret, buildResult, bind, await, ret.
  simpl. rewrite Hp.
  destruct textData; try congruence; simpl;
    try reflexivity.
  destruct (Json.lookup (lit "originalSentence") fields);
    destruct (Json.lookup (lit "blankedSentence") fields); reflexivity.
Qed.

(* ================================================================== *)
(** ** Further properties: the orchestrator *)
(* ================================================================== *)

Lemma cleanBase64_of_header (h p : jsstring) :
  In h dataUriHeaders -> cleanBase64 (h ++ p) = p.
Proof.
  unfold dataUriHeaders. simpl. intros [<-|[<-|[<-|[]]]]; reflexivity.
Qed.

(** X8. [cleanBase64] removes nothing but one leading header: its argument
    is its result with nothing or one of the three headers in front. *)
Theorem cleanBase64_removes_only_a_header (data : jsstring) :
  exists h, (h = [] \/ In h dataUriHeaders) /\ data = h ++ cleanBase64 data.
Proof.
  unfold cleanBase64.
  assert (G : forall hs, (forall h, In h hs -> In h dataUriHeaders) ->
              exists h, (h = [] \/ In h dataUriHeaders) /\ data = h ++ strip_first hs data).
  { induction hs as [|h hs IH]; intro Hsub; simpl.
    - exists []. auto.
    - destruct (strip_prefix h data) as [rest|] eqn:E.
      + exists h. split; [right; apply Hsub; now left | now apply strip_prefix_Some].
      + apply IH. intros h' Hin. apply Hsub. now right. }
  apply G. auto.
Qed.

Lemma scanParts_shape (ps : list Part) :
  scanParts ps = []
  \/ exists data, scanParts ps = lit "data:image/png;base64," ++ data.
Proof.
  induction ps as [|p ps IH]; simpl; [now left|].
  destruct (inlineData p) as [blob|]; [right; eauto | exact IH].
Qed.

Lemma extractImage_shape i log url :
  fst (extractImage i log) = Fulfilled url ->
  match i with
  | Original data => url = data
  | Generated _ => url = [] \/ exists data, url = lit "data:image/png;base64," ++ data
  end.
Proof.
  unfold extractImage, ret, throw. destruct i as [dta|r]; simpl; [congruence|].
  destruct (candidates r) as [[|c cs]|]; simpl; try discriminate.
  - destruct (content c) as [ct|]; simpl; try discriminate.
    destruct (parts ct) as [ps|]; simpl; intro H; injection H as <-;
      [apply scanParts_shape | now left].
  - intro H; injection H as <-. now left.
Qed.

(** X2. Every [QuizResult] that [generateQuiz] returns carries the word it
    was given and a non-empty [imageUrl]; in generate mode the [imageUrl]
    starts with the png data-URI header, whatever mime type the service
    declared for the image. *)
Theorem returned_quiz_has_image_and_word
    (ai : Request -> ServiceOutcome) (first : bool)
    (word sentence : jsstring) (drawing : option jsstring) (mode : Mode)
    (q : QuizResult) :
  outcome (generateQuiz ai first word sentence drawing mode) = Fulfilled q ->
  targetWord q = word
  /\ imageUrl q <> []
  /\ (mode = Generate ->
      exists data, imageUrl q = lit "data:image/png;base64," ++ data).
Proof.
  unfold outcome. rewrite generateQuiz_run.
  destruct (inputs_given mode drawing sentence); [|discriminate].
  intro H. apply merge_fulfilled in H.
  destruct H as (i & t & url & Hi & _ & Hx & Hurl & Hb).
  apply buildResult_fulfilled in Hb. destruct Hb as (-> & -> & _).
  split; [reflexivity|]. split.
  - intro E. rewrite E in Hurl. discriminate.
  - intros ->. simpl in Hi. apply asGenerated_Fulfilled in Hi.
    destruct Hi as (r & _ & ->). apply extractImage_shape in Hx.
    destruct Hx as [E|Hx]; [|exact Hx]. rewrite E in Hurl. discriminate.
Qed.

Lemma returned_quiz_has_image_and_word_witness :
  exists q,
    outcome (generateQuiz Sample.goodService true Sample.word Sample.sentence
               None Generate) = Fulfilled q
    /\ targetWord q = Sample.word
    /\ imageUrl q <> []
    /\ exists data, imageUrl q = lit "data:image/png;base64," ++ data.
Proof.
  eexists. split; [vm_compute; reflexivity|].
  destruct (@returned_quiz_has_image_and_word Sample.goodService true Sample.word
              Sample.sentence None Generate _ eq_refl) as (H1 & H2 & H3).
  split; [exact H1|]. split; [exact H2|]. exact (H3 eq_refl).
Defined.

(** X1. Whatever [generateQuiz] rejects with is the validation error of its
    mode (and then nothing was sent), a [SyntaxError] or [TypeError] of the
    merge, the image-failure error (in generate mode only), or the reason a
    request it sent was rejected with. *)
Theorem generateQuiz_rejections
    (ai : Request -> ServiceOutcome) (first : bool)
    (word sentence : jsstring) (drawing : option jsstring) (mode : Mode)
    (e : Exn) :
  outcome (generateQuiz ai first word sentence drawing mode) = Rejected e ->
  (e = validation_error mode
   /\ inputs_missing mode drawing sentence
   /\ requests (generateQuiz ai first word sentence drawing mode) = [])
  \/ e = JsSyntaxError
  \/ e = JsTypeError
  \/ (mode = Generate /\ e = ErrImageFailed)
  \/ (exists req reason,
        In req (requests (generateQuiz ai first word sentence drawing mode))
        /\ ai req = RejectsWith reason
        /\ e = ServiceRejection reason).
Proof.
  unfold outcome, requests. rewrite generateQuiz_run.
  destruct (inputs_given mode drawing sentence) eqn:Eg.
  - rewrite merge_log. intro H. right.
    destruct (merge_error _ _ _ _ _ H) as [Hi|[Ht|[ -> | [ -> | -> ]]]]; auto.
    + destruct mode; simpl in Hi; [discriminate|].
      apply asGenerated_Rejected, promiseOf_Rejected in Hi.
      destruct Hi as (reason & Hr & ->).
      do 3 right. exists (imageRequest word sentence drawing), reason.
      split; [now left | auto].
    + apply promiseOf_Rejected in Ht. destruct Ht as (reason & Hr & ->).
      do 3 right. exists (textRequest word sentence), reason.
      split; [destruct mode; simpl; auto | auto].
    + destruct mode; [|auto].
      exfalso. unfold merge, bind, await in H. simpl in H, Eg.
      destruct (promiseOf (ai (textRequest word sentence))) as [t|et|] eqn:Et;
        simpl in H; try discriminate.
      * unfold extractImage, ret in H. simpl in H.
        destruct drawing as [[|c d]|]; try discriminate. simpl in H.
        apply buildResult_error in H. destruct H; discriminate.
      * injection H as ->. apply promiseOf_Rejected in Et.
        destruct Et as (reason & _ & Hbad). discriminate.
  - simpl. intro H. injection H as <-. left.
    split; [reflexivity|]. split; [now apply inputs_given_false | reflexivity].
Qed.

Lemma generateQuiz_rejections_witness :
  outcome (generateQuiz Sample.failingService true Sample.word []
             (Some Sample.drawing) Generate)
    = Rejected (ServiceRejection (lit "quota exceeded"))
  /\ ((ServiceRejection (lit "quota exceeded") = validation_error Generate
       /\ inputs_missing Generate (Some Sample.drawing) []
       /\ requests (generateQuiz Sample.failingService true Sample.word []
                      (Some Sample.drawing) Generate) = [])
      \/ ServiceRejection (lit "quota exceeded") = JsSyntaxError
      \/ ServiceRejection (lit "quota exceeded") = JsTypeError
      \/ (Generate = Generate /\ ServiceRejection (lit "quota exceeded") = ErrImageFailed)
      \/ (exists req reason,
            In req (requests (generateQuiz Sample.failingService true Sample.word []
                                (Some Sample.drawing) Generate))
            /\ Sample.failingService req = RejectsWith reason
            /\ ServiceRejection (lit "quota exceeded") = ServiceRejection reason)).
Proof.
  split; [vm_compute; reflexivity|].
  apply (@generateQuiz_rejections Sample.failingService true Sample.word []
           (Some Sample.drawing) Generate).
  vm_compute; reflexivity.
Defined.

(** X3. In submit mode with a drawing and an answered text request, the
    parsed text alone decides how the call ends: text that is not JSON gives
    a [SyntaxError], the JSON value [null] gives a [TypeError], and every
    other JSON value, object or not, gives a result whose sentence fields
    are its members of those names. An absent or empty text counts as an
    empty object. *)
Theorem submit_outcome_by_text
    (ai : Request -> ServiceOutcome) (first : bool)
    (word sentence drawing : jsstring) (t : GenerateContentResponse) :
  drawing <> [] ->
  ai (textRequest word sentence) = Resolves t ->
  outcome (generateQuiz ai first word sentence (Some drawing) Submit)
  = match Json.parse (jsonText t) with
    | Fulfilled JSNull | Fulfilled JSUndefined => Rejected JsTypeError
    | Fulfilled textData => Fulfilled (quizOf word drawing textData)
    | Rejected _ => Rejected JsSyntaxError
    | Pending => Pending
    end
  /\ (truthy_opt (text t) = false -> Json.parse (jsonText t) = Fulfilled (JSObject [])).
Proof.
  intros Hd Ht. split.
  - unfold outcome. rewrite generateQuiz_run.
    destruct drawing as [|c drawing]; [congruence|]. simpl inputs_given. cbv iota.
    simpl imagePromise. rewrite Ht. simpl promiseOf.
    unfold merge, bind, await, extractImage, ret, buildResult, bind, await, ret.
    simpl.
    destruct (Json.parse (jsonText t)) as [td|e|] eqn:Ep; simpl; [|now rewrite (parse_error _ Ep) | reflexivity].
    unfold quizOf.
    destruct td; simpl; try reflexivity.
    destruct (Json.lookup (lit "originalSentence") fields);
      destruct (Json.lookup (lit "blankedSentence") fields); reflexivity.
  - intro Hf. unfold jsonText. rewrite Hf. reflexivity.
Qed.

Lemma submit_outcome_by_text_witness :
  Sample.drawing <> []
  /\ outcome (generateQuiz
                (Sample.service NeverSettles (Resolves (Sample.textOnly (Some (lit "null")))))
                true Sample.word Sample.sentence (Some Sample.drawing) Submit)
     = Rejected JsTypeError
  /\ outcome (generateQuiz
                (Sample.service NeverSettles (Resolves (Sample.textOnly (Some (lit "{oops")))))
                true Sample.word Sample.sentence (Some Sample.drawing) Submit)
     = Rejected JsSyntaxError
  /\ outcome (generateQuiz
                (Sample.service NeverSettles (Resolves (Sample.textOnly (Some (lit "[1, 2]")))))
                true Sample.word Sample.sentence (Some Sample.drawing) Submit)
     = Fulfilled {| imageUrl := Sample.drawing; originalSentence := JSUndefined;
                    blankedSentence := JSUndefined; targetWord := Sample.word |}.
Proof.
  assert (Hd : Sample.drawing <> []) by discriminate.
  split; [exact Hd|]. split; [|split].
  - exact (proj1 (@submit_outcome_by_text
             (Sample.service NeverSettles (Resolves (Sample.textOnly (Some (lit "null")))))
             true Sample.word Sample.sentence Sample.drawing _ Hd eq_refl)).
  - exact (proj1 (@submit_outcome_by_text
             (Sample.service NeverSettles (Resolves (Sample.textOnly (Some (lit "{oops")))))
             true Sample.word Sample.sentence Sample.drawing _ Hd eq_refl)).
  - exact (proj1 (@submit_outcome_by_text
             (Sample.service NeverSettles (Resolves (Sample.textOnly (Some (lit "[1, 2]")))))
             true Sample.word Sample.sentence Sample.drawing _ Hd eq_refl)).
Defined.

(** X4. In generate mode a drawing that starts with one of the three headers
    goes out with the header removed: the requests are the sketch request,
    whose inline part is the bare payload typed [image/png], and then the
    text request; the text-to-image request is not sent, whatever the
    sentence. *)
Theorem generate_forwards_bare_payload
    (ai : Request -> ServiceOutcome) (first : bool)
    (word sentence h payload : jsstring) :
  In h dataUriHeaders ->
  requests (generateQuiz ai first word sentence (Some (h ++ payload)) Generate)
  = [ {| model := imageModel;
         contents := PartsContents
           [ InlineDataPart (lit "image/png") payload;
             TextPart (sketchPrompt word sentence) ];
         config := None |};
      textRequest word sentence ].
Proof.
  intro Hin. unfold requests. rewrite generateQuiz_run.
  assert (Ht : truthy_opt (Some (h ++ payload)) = true).
  { unfold dataUriHeaders in Hin. simpl in Hin.
    destruct Hin as [<-|[<-|[<-|[]]]]; reflexivity. }
  unfold inputs_given. rewrite Ht. simpl orb. cbv iota.
  rewrite merge_log. unfold issued, imageRequest. rewrite Ht.
  unfold sketchRequest, the_string. now rewrite (cleanBase64_of_header _ Hin).
Qed.

Lemma generate_forwards_bare_payload_witness :
  In (lit "data:image/png;base64,") dataUriHeaders
  /\ requests (generateQuiz Sample.goodService true Sample.word Sample.sentence
                 (Some (lit "data:image/png;base64," ++ lit "iVBORw0KGgo=")) Generate)
     = [ {| model := imageModel;
            contents := PartsContents
              [ InlineDataPart (lit "image/png") (lit "iVBORw0KGgo=");
                TextPart (sketchPrompt Sample.word Sample.sentence) ];
            config := None |};
         textRequest Sample.word Sample.sentence ].
Proof.
  assert (Hin : In (lit "data:image/png;base64,") dataUriHeaders) by (left; reflexivity).
  split; [exact Hin|].
  exact (@generate_forwards_bare_payload Sample.goodService true Sample.word
           Sample.sentence _ (lit "iVBORw0KGgo=") Hin).
Defined.

(* ================================================================== *)
(** ** Further properties: the drawing surface and its owner *)
(* ================================================================== *)

Section MoreSurfaceFacts.

Import DrawingCanvas.

Variable toDataURL : Canvas -> jsstring.

Lemma receive_app held calls1 calls2 :
  Shell.receive held (calls1 ++ calls2) = Shell.receive (Shell.receive held calls1) calls2.
Proof. unfold Shell.receive. apply fold_left_app. Qed.

(** One event keeps: a surface not drawn on has an owner holding nothing. *)
Lemma handle_keeps_placeholder ev s held :
  (hasDrawn s = false -> held = None) ->
  hasDrawn (fst (handle toDataURL ev s)) = false ->
  Shell.receive held (snd (handle toDataURL ev s)) = None.
Proof.
  intros Hinv. destruct ev as [e|e| |]; simpl.
  - unfold startDrawing. destruct (canvasRef s) as [c|]; simpl; auto.
    destruct (has2d c); simpl; auto. discriminate.
  - unfold draw. destruct (isDrawing s); simpl; auto.
    destruct (canvasRef s) as [c|]; simpl; auto.
    destruct (has2d c); simpl; auto.
  - unfold stopDrawing, exportCanvas. destruct (isDrawing s); simpl; auto.
    destruct (canvasRef s) as [c|]; simpl; auto.
    destruct (hasDrawn s); simpl; auto. discriminate.
  - unfold clearCanvas. destruct (canvasRef s) as [c|]; simpl; auto.
    destruct (has2d c); simpl; auto.
Qed.

End MoreSurfaceFacts.

(** X5. As long as the owner held nothing when the surface was not drawn on,
    this stays so through every sequence of presses, moves, releases and
    clears: whenever the has-drawn flag is false afterwards (the placeholder
    shows), the last value passed to [onImageReady] was [null]. *)
Theorem placeholder_means_no_drawing
    (toDataURL : DrawingCanvas.Canvas -> jsstring)
    (evs : list DrawingCanvas.Event) (s : DrawingCanvas.Surface)
    (held : option jsstring) :
  (DrawingCanvas.hasDrawn s = false -> held = None) ->
  DrawingCanvas.hasDrawn (fst (DrawingCanvas.play toDataURL evs s)) = false ->
  Shell.receive held (snd (DrawingCanvas.play toDataURL evs s)) = None.
Proof.
  revert s held. induction evs as [|ev evs IH]; intros s held Hinv; simpl.
  - exact Hinv.
  - pose proof (@handle_keeps_placeholder toDataURL ev s held Hinv) as Hstep.
    destruct (DrawingCanvas.handle toDataURL ev s) as [s1 c1]. simpl in Hstep.
    specialize (IH s1 (Shell.receive held c1) Hstep).
    destruct (DrawingCanvas.play toDataURL evs s1) as [s2 c2]. simpl in *.
    intro H. rewrite receive_app. auto.
Qed.

Lemma placeholder_means_no_drawing_witness :
  (DrawingCanvas.hasDrawn SampleUi.mounted = false -> @None jsstring = None)
  /\ DrawingCanvas.hasDrawn
       (fst (DrawingCanvas.play SampleUi.encode (SampleUi.stroke ++ [DrawingCanvas.Clear])
               SampleUi.mounted)) = false
  /\ Shell.receive None
       (snd (DrawingCanvas.play SampleUi.encode (SampleUi.stroke ++ [DrawingCanvas.Clear])
               SampleUi.mounted)) = None.
Proof.
  split; [reflexivity|]. split; [reflexivity|].
  exact (@placeholder_means_no_drawing SampleUi.encode
           (SampleUi.stroke ++ [DrawingCanvas.Clear]) SampleUi.mounted None
           (fun _ => eq_refl) eq_refl).
Defined.

(** X7. A stroke on a mounted surface hands over a snapshot of the whole
    canvas: the one image passed on release encodes everything painted
    before, then the start of the path and one segment per move, on a canvas
    of unchanged size. *)
Theorem stroke_exports_whole_canvas
    (toDataURL : DrawingCanvas.Canvas -> jsstring)
    (s : DrawingCanvas.Surface) (c : DrawingCanvas.Canvas)
    (press : DrawingCanvas.PointerEvent) (moves : list DrawingCanvas.PointerEvent) :
  DrawingCanvas.canvasRef s = Some c -> DrawingCanvas.has2d c = true ->
  exists c',
    DrawingCanvas.play toDataURL
      (DrawingCanvas.Press press :: List.map DrawingCanvas.Move moves
         ++ [DrawingCanvas.Release]) s
    = ({| DrawingCanvas.isDrawing := false; DrawingCanvas.hasDrawn := true;
          DrawingCanvas.canvasRef := Some c' |},
       [Some (toDataURL c')])
    /\ DrawingCanvas.painted c'
       = DrawingCanvas.painted c
           ++ DrawingCanvas.BeginPath
           :: DrawingCanvas.MoveTo (DrawingCanvas.getCoordinates press)
           :: segments moves
    /\ DrawingCanvas.width c' = DrawingCanvas.width c
    /\ DrawingCanvas.height c' = DrawingCanvas.height c.
Proof.
  intros Hc H2d.
  cbn [DrawingCanvas.play DrawingCanvas.handle].
  unfold DrawingCanvas.startDrawing. rewrite Hc, H2d. simpl negb. cbv iota.
  rewrite play_app.
  set (c1 := DrawingCanvas.paint c _).
  destruct (@play_moves_paint toDataURL moves
              {| DrawingCanvas.isDrawing := true; DrawingCanvas.hasDrawn := true;
                 DrawingCanvas.canvasRef := Some c1 |} c1 eq_refl H2d eq_refl)
    as (c' & Hp & Hpaint & Hw & Hh & H2).
  rewrite Hp. cbn [DrawingCanvas.play DrawingCanvas.handle].
  unfold DrawingCanvas.stopDrawing, DrawingCanvas.exportCanvas. simpl.
  exists c'. repeat split; auto.
  rewrite Hpaint. unfold c1. simpl. now rewrite <- app_assoc.
Qed.

Lemma stroke_exports_whole_canvas_witness :
  exists c c',
    DrawingCanvas.canvasRef SampleUi.mounted = Some c
    /\ DrawingCanvas.has2d c = true
    /\ DrawingCanvas.play SampleUi.encode SampleUi.stroke SampleUi.mounted
       = ({| DrawingCanvas.isDrawing := false; DrawingCanvas.hasDrawn := true;
             DrawingCanvas.canvasRef := Some c' |},
          [Some (SampleUi.encode c')])
    /\ DrawingCanvas.painted c'
       = DrawingCanvas.painted c
           ++ DrawingCanvas.BeginPath
           :: DrawingCanvas.MoveTo (DrawingCanvas.getCoordinates (SampleUi.at_ 10 70))
           :: segments [SampleUi.at_ 20 80; SampleUi.at_ 30 75].
Proof.
  eexists.
  destruct (@stroke_exports_whole_canvas SampleUi.encode SampleUi.mounted _
              (SampleUi.at_ 10 70) [SampleUi.at_ 20 80; SampleUi.at_ 30 75]
              eq_refl eq_refl) as (c' & Hplay & Hpaint & _).
  exists c'. repeat split; assumption.
Defined.

(** X6. A clear in the middle of a stroke silences its release: on a mounted
    surface, press, clear, moves, release makes the one call
    [onImageReady(null)] and leaves the has-drawn flag false, although the
    moves after the clear have painted their segments over the white
    fill. *)
Theorem clear_during_stroke_suppresses_export
    (toDataURL : DrawingCanvas.Canvas -> jsstring)
    (s : DrawingCanvas.Surface) (c : DrawingCanvas.Canvas)
    (press : DrawingCanvas.PointerEvent) (moves : list DrawingCanvas.PointerEvent) :
  DrawingCanvas.canvasRef s = Some c -> DrawingCanvas.has2d c = true ->
  exists c',
    DrawingCanvas.play toDataURL
      (DrawingCanvas.Press press :: DrawingCanvas.Clear
         :: List.map DrawingCanvas.Move moves ++ [DrawingCanvas.Release]) s
    = ({| DrawingCanvas.isDrawing := false; DrawingCanvas.hasDrawn := false;
          DrawingCanvas.canvasRef := Some c' |},
       [None])
    /\ DrawingCanvas.painted c'
       = DrawingCanvas.painted c
           ++ [DrawingCanvas.BeginPath;
               DrawingCanvas.MoveTo (DrawingCanvas.getCoordinates press);
               DrawingCanvas.FillWhite (DrawingCanvas.width c) (DrawingCanvas.height c)]
           ++ segments moves.
Proof.
  intros Hc H2d.
  cbn [DrawingCanvas.play DrawingCanvas.handle].
  unfold DrawingCanvas.startDrawing. rewrite Hc, H2d. simpl negb. cbv iota.
  unfold DrawingCanvas.clearCanvas. simpl. rewrite H2d. simpl.
  rewrite play_app.
  set (c2 := DrawingCanvas.paint (DrawingCanvas.paint c _) _).
  destruct (@play_moves_paint toDataURL moves
              {| DrawingCanvas.isDrawing := true; DrawingCanvas.hasDrawn := false;
                 DrawingCanvas.canvasRef := Some c2 |} c2 eq_refl H2d eq_refl)
    as (c' & Hp & Hpaint & _).
  rewrite Hp. cbn [DrawingCanvas.play DrawingCanvas.handle].
  unfold DrawingCanvas.stopDrawing, DrawingCanvas.exportCanvas. simpl.
  exists c'. split; [reflexivity|].
  rewrite Hpaint. unfold c2. simpl. rewrite <- !app_assoc. reflexivity.
Qed.

Lemma clear_during_stroke_suppresses_export_witness :
  exists c c',
    DrawingCanvas.canvasRef SampleUi.mounted = Some c
    /\ DrawingCanvas.has2d c = true
    /\ DrawingCanvas.play SampleUi.encode
         (DrawingCanvas.Press (SampleUi.at_ 10 70) :: DrawingCanvas.Clear
            :: List.map DrawingCanvas.Move [SampleUi.at_ 20 80] ++ [DrawingCanvas.Release])
         SampleUi.mounted
       = ({| DrawingCanvas.isDrawing := false; DrawingCanvas.hasDrawn := false;
             DrawingCanvas.canvasRef := Some c' |},
          [None])
    /\ DrawingCanvas.painted c'
       = DrawingCanvas.painted c
           ++ [DrawingCanvas.BeginPath;
               DrawingCanvas.MoveTo (DrawingCanvas.getCoordinates (SampleUi.at_ 10 70));
               DrawingCanvas.FillWhite (DrawingCanvas.width c) (DrawingCanvas.height c)]
           ++ segments [SampleUi.at_ 20 80].
Proof.
  eexists.
  destruct (@clear_during_stroke_suppresses_export SampleUi.encode SampleUi.mounted _
              (SampleUi.at_ 10 70) [SampleUi.at_ 20 80] eq_refl eq_refl)
    as (c' & Hplay & Hpaint).
  exists c'. repeat split; assumption.
Defined.

(* ================================================================== *)
(** ** Further properties: the share card *)
(* ================================================================== *)

(** Splitting at a separator and putting it back after every piece gives the
    text with one separator at its end. *)
Lemma split_on_join (sep : N) (s : jsstring) :
  List.concat (List.map (fun w => w ++ [sep]) (split_on sep s)) = s ++ [sep].
Proof.
  induction s as [|c s IH]; simpl; [reflexivity|].
  destruct (N.eqb_spec c sep) as [->|Hne]; simpl.
  - now rewrite IH.
  - destruct (split_on sep s) as [|w ws]; simpl in *.
    + destruct s; discriminate.
    + now rewrite <- IH.
Qed.

Lemma split_on_length (sep : N) (s : jsstring) :
  List.length (split_on sep s) = S (count_occ N.eq_dec s sep).
Proof.
  induction s as [|c s IH]; simpl; [reflexivity|].
  destruct (N.eqb_spec c sep) as [->|Hne].
  - simpl. rewrite IH. now destruct (N.eq_dec sep sep).
  - destruct (N.eq_dec c sep); [contradiction|].
    destruct (split_on sep s); simpl in *; [discriminate | exact IH].
Qed.

Section WrapFacts.

Import App.

Variable measureText : jsstring -> float.

Lemma greedyFrom_concat words : forall line,
  List.concat (greedyFrom measureText line words)
  = line ++ List.concat (List.map (fun w => w ++ lit " ") words).
Proof.
  induction words as [|w words IH]; intro line; simpl.
  - reflexivity.
  - destruct (gt _ _); simpl; rewrite IH; [reflexivity | now rewrite <- !app_assoc].
Qed.

Lemma greedyFrom_length words : forall line,
  (1 <= List.length (greedyFrom measureText line words) <= S (List.length words))%nat.
Proof.
  induction words as [|w words IH]; intro line; simpl; [lia|].
  destruct (gt _ _); simpl.
  - specialize (IH (w ++ lit " ")). lia.
  - specialize (IH (line ++ w ++ lit " ")). lia.
Qed.

(** A line that fits or holds one word, and the words still to come. *)
Lemma greedyFrom_fits all words : forall line,
  incl words all ->
  fits measureText line \/ (exists w, In w all /\ line = w ++ lit " ") ->
  Forall (fun l => fits measureText l \/ exists w, In w all /\ l = w ++ lit " ")
    (greedyFrom measureText line words).
Proof.
  induction words as [|w words IH]; intros line Hincl Hline; simpl.
  - now constructor.
  - assert (Hw : In w all) by (apply Hincl; now left).
    assert (Hrest : incl words all) by (intros x Hx; apply Hincl; now right).
    destruct (gt (measureText (line ++ w ++ lit " ")) textMaxWidth) eqn:Eg.
    + constructor; [exact Hline|]. apply IH; [exact Hrest|]. right. eauto.
    + apply IH; [exact Hrest|]. left. exact Eg.
Qed.

End WrapFacts.

(** X9. Wrapping loses and adds nothing: whatever the text measure, the lines
    of the card, put end to end, are the blanked sentence followed by one
    space. *)
Theorem wrap_preserves_sentence
    (measureText : jsstring -> float) (sentence : jsstring) :
  List.concat (App.wrapText measureText sentence) = sentence ++ lit " ".
Proof.
  rewrite wrapText_greedy. unfold App.greedyWrap.
  pose proof (split_on_join 32 sentence) as J.
  destruct (split_on 32 sentence) as [|w words]; simpl in J.
  - destruct sentence; discriminate.
  - rewrite greedyFrom_concat. exact J.
Qed.

(** X10. Every line of the card either is not wider than the text column
    (1080 pixels by the measure in use) or consists of a single word of the
    sentence and its space: only a word too wide on its own overflows. *)
Theorem wrapped_lines_fit_or_hold_one_word
    (measureText : jsstring -> float) (sentence : jsstring) :
  Forall (fun line =>
            fits measureText line
            \/ exists w, In w (split_on 32 sentence) /\ line = w ++ lit " ")
    (App.wrapText measureText sentence).
Proof.
  rewrite wrapText_greedy. unfold App.greedyWrap.
  destruct (split_on 32 sentence) as [|w words] eqn:E.
  - pose proof (split_on_length 32 sentence) as L. rewrite E in L. discriminate.
  - apply greedyFrom_fits.
    + intros x Hx. now right.
    + right. exists w. split; [now left | reflexivity].
Qed.

(** X11. The card has at least one line and at most one line per word: the
    number of lines is between 1 and the number of spaces in the sentence
    plus one. *)
Theorem wrapped_line_count_bounds
    (measureText : jsstring -> float) (sentence : jsstring) :
  (1 <= List.length (App.wrapText measureText sentence)
     <= S (count_occ N.eq_dec sentence 32%N))%nat.
Proof.
  rewrite wrapText_greedy. pose proof (split_on_length 32 sentence) as L.
  unfold App.greedyWrap.
  destruct (split_on 32 sentence) as [|w words]; simpl in L; [discriminate|].
  pose proof (greedyFrom_length measureText words (w ++ lit " ")). lia.
Qed.

(** X12. The name given on the card path holds no white space, whatever the
    target word. *)
Theorem card_filename_has_no_whitespace (targetWord : jsstring) :
  spaceless (App.cardFilename targetWord) = true.
Proof.
  unfold spaceless, App.cardFilename.
  rewrite !forallb_app, replace_ws_runs_clean. reflexivity.
Qed.

(** X14. With a result, [downloadImage] makes exactly one download. It takes
    the card path exactly when the image decodes, the canvas context is
    there, the blanked sentence is a string and the export succeeds; the
    link then points at the exported card. In every other case the link
    points at the result's own image. Without a result nothing is
    downloaded. *)
Theorem download_paths
    (loadImage : jsstring -> option App.Image) (has2d : bool)
    (measureText : jsstring -> float) (toDataURL : App.Card -> option jsstring)
    (r : QuizResult) :
  App.downloadImage loadImage has2d measureText toDataURL None = None
  /\ (forall img sentence url,
        loadImage (imageUrl r) = Some img -> has2d = true ->
        blankedSentence r = JSString sentence ->
        toDataURL (App.composeCard measureText img sentence) = Some url ->
        App.downloadImage loadImage has2d measureText toDataURL (Some r)
        = Some (App.CardPath (App.composeCard measureText img sentence),
                {| App.filename := App.cardFilename (targetWord r); App.href := url |}))
  /\ (loadImage (imageUrl r) = None \/ has2d = false
      \/ (forall sentence, blankedSentence r <> JSString sentence)
      \/ (forall img sentence,
            loadImage (imageUrl r) = Some img -> blankedSentence r = JSString sentence ->
            toDataURL (App.composeCard measureText img sentence) = None) ->
      App.downloadImage loadImage has2d measureText toDataURL (Some r)
      = Some (App.FallbackPath,
              {| App.filename := App.fallbackFilename (targetWord r);
                 App.href := imageUrl r |})).
Proof.
  split; [reflexivity|]. split.
  - intros img sentence url Hl -> Hs Hu.
    unfold App.downloadImage, App.tryCard. rewrite Hl, Hs. simpl. now rewrite Hu.
  - intro H. unfold App.downloadImage, App.tryCard.
    destruct (loadImage (imageUrl r)) as [img|] eqn:El; [|reflexivity].
    destruct has2d; simpl; [|reflexivity].
    destruct (blankedSentence r) as [| | | |sentence| |] eqn:Es; try reflexivity.
    destruct H as [H|[H|[H|H]]]; try discriminate.
    + now destruct (H sentence).
    + now rewrite (H img sentence eq_refl eq_refl).
Qed.

Lemma download_paths_witness :
  SampleUi.decodes (imageUrl (SampleUi.result (lit "ice cream"))) = Some SampleUi.square
  /\ blankedSentence (SampleUi.result (lit "ice cream")) = JSString SampleUi.blanked
  /\ App.downloadImage SampleUi.decodes true SampleUi.measure SampleUi.render
       (Some (SampleUi.result (lit "ice cream")))
     = Some (App.CardPath (App.composeCard SampleUi.measure SampleUi.square SampleUi.blanked),
             {| App.filename := App.cardFilename (lit "ice cream");
                App.href := lit "data:image/png;base64,Q0FSRA==" |})
  /\ App.downloadImage SampleUi.breaks true SampleUi.measure SampleUi.render
       (Some (SampleUi.result (lit "ice cream")))
     = Some (App.FallbackPath,
             {| App.filename := App.fallbackFilename (lit "ice cream");
                App.href := imageUrl (SampleUi.result (lit "ice cream")) |}).
Proof.
  split; [reflexivity|]. split; [reflexivity|]. split.
  - exact (proj1 (proj2 (@download_paths SampleUi.decodes true SampleUi.measure
                           SampleUi.render (SampleUi.result (lit "ice cream"))))
             SampleUi.square SampleUi.blanked _ eq_refl eq_refl eq_refl eq_refl).
  - exact (proj2 (proj2 (@download_paths SampleUi.breaks true SampleUi.measure
                           SampleUi.render (SampleUi.result (lit "ice cream"))))
             (or_introl eq_refl)).
Defined.

(** X13. The two paths of [downloadImage] name the file alike exactly for
    the target words that hold no white space. *)
Theorem download_names_agree_iff_spaceless (targetWord : jsstring) :
  App.fallbackFilename targetWord = App.cardFilename targetWord
  <-> spaceless targetWord = true.
Proof. unfold spaceless. apply fallback_name_agrees_iff. Qed.

(* ================================================================== *)
(** ** Further properties: the form *)
(* ================================================================== *)

Lemma refusal_None (mode : Mode) (s : Shell.State) :
  Shell.refusal mode s = None
  <-> truthy (trim (Shell.word s)) = true
      /\ inputs_given mode (Shell.drawingData s) (Shell.sentence s) = true.
Proof.
  unfold Shell.refusal, inputs_given.
  destruct (truthy (trim (Shell.word s))); simpl.
  - destruct mode.
    + destruct (truthy_opt (Shell.drawingData s)); simpl; split; intro H;
        try tauto; try discriminate; destruct H; discriminate.
    + destruct (truthy (trim (Shell.sentence s))), (truthy_opt (Shell.drawingData s));
        simpl; split; intro H; try tauto; try discriminate; destruct H; discriminate.
  - split; [discriminate | intros [H _]; discriminate].
Qed.

Lemma truthy_true_iff (l : jsstring) : truthy l = true <-> l <> [].
Proof. destruct l; simpl; split; congruence. Qed.

Lemma issued_nonempty word sentence drawing mode :
  issued word sentence drawing mode <> [].
Proof. destruct mode; discriminate. Qed.

(** A call whose inputs are given does not end in a validation error. *)
Lemma given_inputs_pass_validation ai first word sentence drawing mode e :
  inputs_given mode drawing sentence = true ->
  outcome (generateQuiz ai first word sentence drawing mode) = Rejected e ->
  is_validation_error e = false.
Proof.
  intros Hg. unfold outcome. rewrite generateQuiz_run, Hg. intro H.
  apply merge_error in H. destruct H as [Hi|[Ht|[ -> | [ -> | -> ]]]]; try reflexivity.
  - destruct mode; simpl in Hi; [discriminate|].
    apply asGenerated_Rejected, promiseOf_Rejected in Hi.
    destruct Hi as (r & _ & ->). reflexivity.
  - apply promiseOf_Rejected in Ht. destruct Ht as (r & _ & ->). reflexivity.
Qed.

(** X15. [handleQuizGeneration] sends no request exactly when the word is
    blank or the inputs its mode requires are missing; it then shows an
    error, shows no result and leaves the loading flag alone. *)
Theorem form_refuses_without_sending
    (ai : Request -> ServiceOutcome) (first : bool) (runtimeMessage : Exn -> jsstring)
    (mode : Mode) (s : Shell.State) :
  (snd (Shell.handleQuizGeneration ai first runtimeMessage mode s) = []
   <-> blank (Shell.word s)
       \/ inputs_missing mode (Shell.drawingData s) (Shell.sentence s))
  /\ (snd (Shell.handleQuizGeneration ai first runtimeMessage mode s) = [] ->
      Shell.result (fst (Shell.handleQuizGeneration ai first runtimeMessage mode s)) = None
      /\ Shell.error (fst (Shell.handleQuizGeneration ai first runtimeMessage mode s))
         = Shell.refusal mode s
      /\ Shell.refusal mode s <> None
      /\ Shell.isLoading (fst (Shell.handleQuizGeneration ai first runtimeMessage mode s))
         = Shell.isLoading s).
Proof.
  assert (Hsent : Shell.refusal mode s = None ->
                  snd (Shell.handleQuizGeneration ai first runtimeMessage mode s) <> []).
  { intro Hr. unfold Shell.handleQuizGeneration. rewrite Hr.
    apply refusal_None in Hr. destruct Hr as [_ Hg].
    rewrite generateQuiz_run, Hg.
    pose proof (merge_log first (Shell.word s)
                  (imagePromise ai (Shell.word s) (Shell.sentence s) (Shell.drawingData s) mode)
                  (promiseOf (ai (textRequest (Shell.word s) (Shell.sentence s))))
                  (issued (Shell.word s) (Shell.sentence s) (Shell.drawingData s) mode)) as L.
    destruct (merge _ _ _ _ _) as [[q|e|] sent]; simpl in *; subst;
      apply issued_nonempty. }
  assert (Hiff : Shell.refusal mode s <> None
                 <-> blank (Shell.word s)
                     \/ inputs_missing mode (Shell.drawingData s) (Shell.sentence s)).
  { rewrite <- trim_falsy, <- inputs_given_false.
    pose proof (refusal_None mode s) as R.
    destruct (Shell.refusal mode s) as [msg|].
    - split; [intros _|discriminate].
      destruct (truthy (trim (Shell.word s))); [|now left].
      destruct (inputs_given mode (Shell.drawingData s) (Shell.sentence s)); [|now right].
      destruct R as [_ R]. discriminate R. auto.
    - split; [congruence|]. destruct R as [R _]. destruct (R eq_refl) as [Hw Hg].
      rewrite Hw, Hg. intros [H|H]; discriminate. }
  split.
  - rewrite <- Hiff. split.
    + intros Hs Hr. now apply Hsent in Hr.
    + intro Hr. unfold Shell.handleQuizGeneration.
      destruct (Shell.refusal mode s); [reflexivity | congruence].
  - intro Hs.
    assert (Hn : Shell.refusal mode s <> None) by (intro Hr; now apply Hsent in Hr).
    clear Hsent Hiff Hs.
    unfold Shell.handleQuizGeneration.
    destruct (Shell.refusal mode s) as [msg|]; [|congruence].
    simpl. repeat split; discriminate.
Qed.

Lemma form_refuses_without_sending_witness :
  snd (Shell.handleQuizGeneration Sample.goodService true SampleShell.mute Submit
         SampleShell.noWord) = []
  /\ blank (Shell.word SampleShell.noWord)
  /\ Shell.result (fst (Shell.handleQuizGeneration Sample.goodService true SampleShell.mute
                          Submit SampleShell.noWord)) = None
  /\ Shell.error (fst (Shell.handleQuizGeneration Sample.goodService true SampleShell.mute
                         Submit SampleShell.noWord)) = Some Shell.msgNoWord.
Proof.
  assert (Hb : blank (Shell.word SampleShell.noWord)) by (repeat constructor).
  assert (Hs : snd (Shell.handleQuizGeneration Sample.goodService true SampleShell.mute
                      Submit SampleShell.noWord) = []).
  { exact (proj2 (proj1 (@form_refuses_without_sending Sample.goodService true
                           SampleShell.mute Submit SampleShell.noWord)) (or_introl Hb)). }
  split; [exact Hs|]. split; [exact Hb|].
  destruct (proj2 (@form_refuses_without_sending Sample.goodService true
                     SampleShell.mute Submit SampleShell.noWord) Hs) as (H1 & H2 & _).
  split; [exact H1 | exact H2].
Defined.

(** X17. The form's own checks make the checks of [generateQuiz]
    unreachable: a call that [handleQuizGeneration] lets through never ends
    in one of the two validation errors of [generateQuiz]. *)
Theorem form_checks_cover_orchestrator_checks
    (ai : Request -> ServiceOutcome) (first : bool)
    (mode : Mode) (s : Shell.State) (e : Exn) :
  Shell.refusal mode s = None ->
  outcome (generateQuiz ai first (Shell.word s) (Shell.sentence s)
             (Shell.drawingData s) mode) = Rejected e ->
  is_validation_error e = false.
Proof.
  intros Hr. apply refusal_None in Hr. destruct Hr as [_ Hg].
  now apply given_inputs_pass_validation.
Qed.

Lemma form_checks_cover_orchestrator_checks_witness :
  Shell.refusal Generate SampleShell.filled = None
  /\ outcome (generateQuiz Sample.failingService true (Shell.word SampleShell.filled)
                (Shell.sentence SampleShell.filled) (Shell.drawingData SampleShell.filled)
                Generate)
     = Rejected (ServiceRejection (lit "quota exceeded"))
  /\ is_validation_error (ServiceRejection (lit "quota exceeded")) = false.
Proof.
  split; [reflexivity|]. split; [vm_compute; reflexivity|].
  apply (@form_checks_cover_orchestrator_checks Sample.failingService true Generate
           SampleShell.filled _ eq_refl).
  vm_compute; reflexivity.
Defined.

Lemma refusal_nonempty (mode : Mode) (s : Shell.State) (msg : jsstring) :
  Shell.refusal mode s = Some msg -> msg <> [].
Proof.
  unfold Shell.refusal.
  destruct (negb (truthy (trim (Shell.word s)))).
  - intro H; injection H as <-. discriminate.
  - destruct mode.
    + destruct (negb (truthy_opt (Shell.drawingData s))); [|discriminate].
      intro H; injection H as <-. discriminate.
    + destruct (negb (truthy (trim (Shell.sentence s)))
                && negb (truthy_opt (Shell.drawingData s))); [|discriminate].
      intro H; injection H as <-. discriminate.
Qed.

(** X16. [handleQuizGeneration] keeps the word, the sentence and the
    drawing, and empties the guess and the feedback. Started while nothing
    is loading, it ends in one of three states: still loading with neither
    result nor error (the call never settled); a result and no error (the
    call returned it); or no result and a non-empty error message. *)
Theorem form_ends_with_result_or_error
    (ai : Request -> ServiceOutcome) (first : bool) (runtimeMessage : Exn -> jsstring)
    (mode : Mode) (s : Shell.State) :
  let s' := fst (Shell.handleQuizGeneration ai first runtimeMessage mode s) in
  let call := generateQuiz ai first (Shell.word s) (Shell.sentence s)
                (Shell.drawingData s) mode in
  Shell.word s' = Shell.word s
  /\ Shell.sentence s' = Shell.sentence s
  /\ Shell.drawingData s' = Shell.drawingData s
  /\ Shell.userGuess s' = []
  /\ Shell.feedback s' = None
  /\ (Shell.isLoading s = false ->
      (Shell.isLoading s' = true /\ Shell.result s' = None /\ Shell.error s' = None
       /\ Shell.refusal mode s = None /\ outcome call = Pending)
      \/ (Shell.isLoading s' = false /\ Shell.error s' = None
          /\ Shell.refusal mode s = None
          /\ exists q, Shell.result s' = Some q /\ outcome call = Fulfilled q)
      \/ (Shell.isLoading s' = false /\ Shell.result s' = None
          /\ exists msg, Shell.error s' = Some msg /\ msg <> [])).
Proof.
  cbv zeta. unfold Shell.handleQuizGeneration, outcome.
  destruct (Shell.refusal mode s) as [msg|] eqn:Hr.
  - simpl. repeat split. intro Hl. right. right.
    repeat split; auto. exists msg. split; [reflexivity|].
    now apply refusal_nonempty in Hr.
  - destruct (run (generateQuiz ai first (Shell.word s) (Shell.sentence s)
                     (Shell.drawingData s) mode)) as [[q|e|] sent]; simpl.
    + repeat split. intros _. right. left. repeat split. exists q. auto.
    + repeat split. intros _. right. right. repeat split.
      eexists. split; [reflexivity|].
      destruct (truthy (Shell.errMessage runtimeMessage e)) eqn:Et.
      * now apply truthy_true_iff.
      * discriminate.
    + repeat split. intros _. left. auto.
Qed.

Lemma form_ends_with_result_or_error_witness :
  Shell.isLoading SampleShell.filled = false
  /\ Shell.isLoading (fst (Shell.handleQuizGeneration Sample.noCandidateService true
                             SampleShell.mute Generate SampleShell.filled)) = false
  /\ Shell.result (fst (Shell.handleQuizGeneration Sample.noCandidateService true
                          SampleShell.mute Generate SampleShell.filled)) = None
  /\ Shell.error (fst (Shell.handleQuizGeneration Sample.noCandidateService true
                         SampleShell.mute Generate SampleShell.filled))
     = Some Shell.msgGeneric
  /\ ((Shell.isLoading (fst (Shell.handleQuizGeneration Sample.goodService true
                               SampleShell.mute Submit SampleShell.filled)) = true
       /\ Shell.result (fst (Shell.handleQuizGeneration Sample.goodService true
                               SampleShell.mute Submit SampleShell.filled)) = None
       /\ Shell.error (fst (Shell.handleQuizGeneration Sample.goodService true
                              SampleShell.mute Submit SampleShell.filled)) = None
       /\ Shell.refusal Submit SampleShell.filled = None
       /\ outcome (generateQuiz Sample.goodService true (Shell.word SampleShell.filled)
                     (Shell.sentence SampleShell.filled)
                     (Shell.drawingData SampleShell.filled) Submit) = Pending)
      \/ (Shell.isLoading (fst (Shell.handleQuizGeneration Sample.goodService true
                                  SampleShell.mute Submit SampleShell.filled)) = false
          /\ Shell.error (fst (Shell.handleQuizGeneration Sample.goodService true
                                 SampleShell.mute Submit SampleShell.filled)) = None
          /\ Shell.refusal Submit SampleShell.filled = None
          /\ exists q,
               Shell.result (fst (Shell.handleQuizGeneration Sample.goodService true
                                    SampleShell.mute Submit SampleShell.filled)) = Some q
               /\ outcome (generateQuiz Sample.goodService true
                             (Shell.word SampleShell.filled)
                             (Shell.sentence SampleShell.filled)
                             (Shell.drawingData SampleShell.filled) Submit) = Fulfilled q)
      \/ (Shell.isLoading (fst (Shell.handleQuizGeneration Sample.goodService true
                                  SampleShell.mute Submit SampleShell.filled)) = false
          /\ Shell.result (fst (Shell.handleQuizGeneration Sample.goodService true
                                  SampleShell.mute Submit SampleShell.filled)) = None
          /\ exists msg,
               Shell.error (fst (Shell.handleQuizGeneration Sample.goodService true
                                   SampleShell.mute Submit SampleShell.filled)) = Some msg
               /\ msg <> [])).
Proof.
  split; [reflexivity|]. split; [vm_compute; reflexivity|].
  split; [vm_compute; reflexivity|]. split; [vm_compute; reflexivity|].
  exact (proj2 (proj2 (proj2 (proj2 (proj2
           (@form_ends_with_result_or_error Sample.goodService true SampleShell.mute
              Submit SampleShell.filled))))) eq_refl).
Defined.

(** X18. A sentence of white space only is no sentence for the text branch
    but still a sentence for the sketch prompt: in generate mode with a
    drawing and a blank, non-empty sentence, the text request asks the
    service to write a sentence of its own, while the prompt of the sketch
    request quotes the blank sentence as context. *)
Theorem blank_sentence_is_quoted_but_not_used
    (ai : Request -> ServiceOutcome) (first : bool)
    (word sentence drawing : jsstring) :
  blank sentence -> sentence <> [] -> drawing <> [] ->
  requests (generateQuiz ai first word sentence (Some drawing) Generate)
  = [ {| model := imageModel;
         contents := PartsContents
           [ InlineDataPart (lit "image/png") (cleanBase64 drawing);
             TextPart
               (lit "Turn this rough sketch into a high-quality, colorful, realistic illustration that clearly represents the concept of '"
                  ++ word ++ lit "'"
                  ++ (lit " and the context of the sentence: " ++ dq ++ sentence ++ dq)
                  ++ lit ". Do not include any text inside the generated image.") ];
         config := None |};
      authorRequest word ].
Proof.
  intros Hb Hs Hd. unfold requests. rewrite generateQuiz_run.
  apply truthy_true_iff in Hs. apply truthy_true_iff in Hd.
  apply trim_falsy in Hb.
  unfold inputs_given. simpl truthy_opt. rewrite Hd. simpl orb. cbv iota.
  rewrite merge_log. unfold issued, imageRequest, textRequest. simpl truthy_opt.
  rewrite Hd, Hb. unfold sketchRequest, sketchPrompt, the_string. now rewrite Hs.
Qed.

Lemma blank_sentence_is_quoted_but_not_used_witness :
  blank (lit "  ") /\ lit "  " <> [] /\ Sample.drawing <> []
  /\ requests (generateQuiz Sample.goodService true Sample.word (lit "  ")
                 (Some Sample.drawing) Generate)
     = [ {| model := imageModel;
            contents := PartsContents
              [ InlineDataPart (lit "image/png") (cleanBase64 Sample.drawing);
                TextPart
                  (lit "Turn this rough sketch into a high-quality, colorful, realistic illustration that clearly represents the concept of '"
                     ++ Sample.word ++ lit "'"
                     ++ (lit " and the context of the sentence: " ++ dq ++ lit "  " ++ dq)
                     ++ lit ". Do not include any text inside the generated image.") ];
            config := None |};
         authorRequest Sample.word ].
Proof.
  assert (Hb : blank (lit "  ")) by (repeat constructor).
  assert (Hs : lit "  " <> []) by discriminate.
  assert (Hd : Sample.drawing <> []) by discriminate.
  split; [exact Hb|]. split; [exact Hs|]. split; [exact Hd|].
  exact (@blank_sentence_is_quoted_but_not_used Sample.goodService true Sample.word
           (lit "  ") Sample.drawing Hb Hs Hd).
Defined.
